(** * CenterFeed: optimistic updates, realtime reconciliation and the
      filter/sort projection of the feed component

    Shallow embedding of [src/components/layout/CenterFeed.tsx].

    Conventions of the embedding.
    - A JavaScript string is a [string]; each [ascii] stands for one code
      unit in the range 0..255.
    - An optional field ([T | undefined | null], read with [?.]) is an
      [option].
    - A JavaScript number that may be [NaN] is an [option Z], [None] being
      [NaN].
    - The builtins whose full behaviour is outside the component
      ([String.prototype.toLowerCase], [new Date(s).getTime()]) are the
      fields of the class [Builtins].
    - An event handler is a function to the trace of effects it performs, in
      program order; a state update [setPosts(prev => ...)] is the effect
      [SetPosts f], to be applied to whatever the state is when it lands. *)

From Stdlib Require Import ZArith Ascii.
From stdpp Require Import base option list sorting strings pretty gmap.

Local Open Scope Z_scope.
#[local] Set Warnings "-clear-no-such-hyp".

(* ===================================================================== *)
(** * JavaScript builtins used by the component *)
(* ===================================================================== *)

Module Js.

(** [WhiteSpace] and [LineTerminator] code units below 256: the class
    [\s] of a regular expression and the characters [trim] strips. *)
Definition is_white_space (c : ascii) : bool :=
  match c with
  | "009" | "010" | "011" | "012" | "013" | " " | "160" => true
  | _ => false
  end%char.

(** The characters the regular-expression atom [.] refuses. *)
Definition is_line_terminator (c : ascii) : bool :=
  match c with
  | "010" | "013" => true
  | _ => false
  end%char.

Definition is_empty (s : string) : bool :=
  match s with "" => true | String _ _ => false end.

(** Truthiness of a string: only the empty string is falsy. *)
Definition truthy (s : string) : bool := negb (is_empty s).

(** Truthiness of [string | undefined]. *)
Definition truthy_opt (s : option string) : bool :=
  match s with Some s => truthy s | None => false end.

(** [a || b] on strings. *)
Definition or_else (a : option string) (b : string) : string :=
  match a with
  | Some s => if truthy s then s else b
  | None => b
  end.

Fixpoint startsWith (s sub : string) : bool :=
  match sub, s with
  | "", _ => true
  | String c sub', String d s' => if decide (c = d) then startsWith s' sub' else false
  | String _ _, "" => false
  end.

(** [s.includes(sub)]: [sub] occurs in [s] as a contiguous run. *)
Fixpoint includes (s sub : string) : bool :=
  startsWith s sub ||
  match s with
  | "" => false
  | String _ s' => includes s' sub
  end.

Fixpoint trimStart (s : string) : string :=
  match s with
  | "" => ""
  | String c s' => if is_white_space c then trimStart s' else s
  end.

Fixpoint trimEnd (s : string) : string :=
  match s with
  | "" => ""
  | String c s' =>
      let t := trimEnd s' in
      if is_white_space c && is_empty t then "" else String c t
  end.

Definition trim (s : string) : string := trimEnd (trimStart s).

(** ASCII lower-casing, the restriction of [toLowerCase] to code units
    below 128. *)
Definition ascii_toLowerCase (c : ascii) : ascii :=
  let n := N_of_ascii c in
  if ((65 <=? n) && (n <=? 90))%N then ascii_of_N (n + 32) else c.

Fixpoint string_map (f : ascii → ascii) (s : string) : string :=
  match s with
  | "" => ""
  | String c s' => String (f c) (string_map f s')
  end.

Fixpoint string_length (s : string) : nat :=
  match s with
  | "" => O
  | String _ s' => S (string_length s')
  end.

Fixpoint string_take (n : nat) (s : string) : string :=
  match n, s with
  | S n', String c s' => String c (string_take n' s')
  | _, _ => ""
  end.

(** A JavaScript number that may be [NaN]. *)
Definition number := option Z.

Definition minus (a b : number) : number :=
  match a, b with
  | Some x, Some y => Some (x - y)
  | _, _ => None
  end.

End Js.

(** The builtins taken as given. *)
Class Builtins := {
  toLowerCase : string → string;
  Date_getTime : string → Js.number
}.

(* ===================================================================== *)
(** * Regular expressions: the backtracking fragment [URL_REGEX] uses *)
(* ===================================================================== *)

Module Regex.

Inductive t :=
| Char (p : ascii → bool)      (* one code unit of a class *)
| Seq (r1 r2 : t)              (* r1 r2 *)
| Opt (r : t)                  (* r?   greedy *)
| Star (p : ascii → bool).     (* [class]*  greedy *)

(** Greedy repetition of a class: take the character first, fall back to
    the continuation on the shorter match. *)
Fixpoint star (p : ascii → bool) (s : string)
    (k : string → option string) : option string :=
  match s with
  | String c s' =>
      if p c then
        match star p s' k with
        | Some rest => Some rest
        | None => k s
        end
      else k s
  | "" => k s
  end.

(** [run r s k]: match [r] at the start of [s], then the continuation [k]
    on what is left; the result is the unmatched rest of the input. *)
Fixpoint run (r : t) (s : string) (k : string → option string) : option string :=
  match r with
  | Char p =>
      match s with
      | String c s' => if p c then k s' else None
      | "" => None
      end
  | Seq r1 r2 => run r1 s (λ s', run r2 s' k)
  | Opt r' =>
      match run r' s k with
      | Some rest => Some rest
      | None => k s
      end
  | Star p => star p s k
  end.

(** The text matched at the start of [s], if any. *)
Definition match_here (r : t) (s : string) : option string :=
  rest ← run r s Some;
  Some (Js.string_take (Js.string_length s - Js.string_length rest) s).

(** [s.match(r)] without the [g] flag: the leftmost match; element [0] of
    the result array. *)
Fixpoint exec (r : t) (s : string) : option string :=
  match match_here r s with
  | Some m => Some m
  | None =>
      match s with
      | "" => None
      | String _ s' => exec r s'
      end
  end.

(** A literal character under the [i] flag. *)
Definition lit_i (c : ascii) : t :=
  Char (λ d, bool_decide (Js.ascii_toLowerCase d = Js.ascii_toLowerCase c)).

Definition lit (c : ascii) : t := Char (λ d, bool_decide (d = c)).

End Regex.

(** [/https?:\/\/[^\s/$.?#].[^\s]*/i] *)
Definition URL_REGEX : Regex.t :=
  let not_in_first (c : ascii) : bool :=
    negb (Js.is_white_space c) &&
    negb (bool_decide (c = "/" ∨ c = "$" ∨ c = "." ∨ c = "?" ∨ c = "#"))%char in
  Regex.Seq (Regex.lit_i "h") (Regex.Seq (Regex.lit_i "t") (Regex.Seq (Regex.lit_i "t")
  (Regex.Seq (Regex.lit_i "p") (Regex.Seq (Regex.Opt (Regex.lit_i "s"))
  (Regex.Seq (Regex.lit ":") (Regex.Seq (Regex.lit "/") (Regex.Seq (Regex.lit "/")
  (Regex.Seq (Regex.Char not_in_first)
  (Regex.Seq (Regex.Char (λ c, negb (Js.is_line_terminator c)))
             (Regex.Star (λ c, negb (Js.is_white_space c)))))))))))).

(* ===================================================================== *)
(** * Link previews *)
(* ===================================================================== *)

Module LinkPreview.
Record t := mk {
  url : string;
  title : string;
  description : option string;
  image : option string
}.
End LinkPreview.

(** The value the promise of [fetchRichLinkPreview(url)] resolves to. The
    body of its [try] cannot throw, so the [catch] is never taken. *)
Definition fetchRichLinkPreview (url : string) : LinkPreview.t :=
  if Js.includes url "google.com" then
    LinkPreview.mk url
      "Google - Search the world's information"
      (Some "Search the world's information, including webpages, images, videos and more.")
      (Some "https://www.google.com/images/branding/googlelogo/1x/googlelogo_color_272x92dp.png")
  else if Js.includes url "wikipedia.org" then
    LinkPreview.mk url
      "Wikipedia, the free encyclopedia"
      (Some "Wikipedia is a free online encyclopedia, created and maintained by a community of volunteer editors through open collaboration and using a wiki-based editing system.")
      (Some "https://upload.wikimedia.org/wikipedia/en/thumb/8/80/Wikipedia-logo-v2.svg/1200px-Wikipedia-logo-v2.svg.png")
  else LinkPreview.mk url url None None.



(* ===================================================================== *)
(** * Data model (the rows of [lib/supabase], as the component reads them) *)
(* ===================================================================== *)

Module User.
Record t := mk { id : string }.
End User.

Module Profile.
Record t := mk {
  username : option string;
  avatar_url : option string;
  email : option string;
  role : string;
  verification_status : string
}.
End Profile.

Module Like.
Record t := mk {
  id : Z;
  post_id : string;
  user_id : string;
  created_at : string
}.
End Like.

Module Comment.
Record t := mk {
  id : string;
  post_id : string;
  user_id : string;
  content : string;
  created_at : string;
  profiles : option Profile.t
}.
End Comment.

Module Post.
Record t := mk {
  id : string;
  user_id : string;
  created_at : string;
  post_type : string;
  content : option string;
  resource_title : option string;
  resource_category : option string;
  resource_contact : option string;
  image_url : option string;
  link_url : option string;
  link_title : option string;
  link_description : option string;
  link_image : option string;
  profiles : option Profile.t;
  likes : option (list Like.t);
  comments : option (list Comment.t)
}.

(** [{ ...p, likes: l }] *)
Definition with_likes (l : option (list Like.t)) (p : t) : t :=
  mk (id p) (user_id p) (created_at p) (post_type p) (content p)
     (resource_title p) (resource_category p) (resource_contact p)
     (image_url p) (link_url p) (link_title p) (link_description p)
     (link_image p) (profiles p) l (comments p).

(** [{ ...p, comments: c }] *)
Definition with_comments (c : option (list Comment.t)) (p : t) : t :=
  mk (id p) (user_id p) (created_at p) (post_type p) (content p)
     (resource_title p) (resource_category p) (resource_contact p)
     (image_url p) (link_url p) (link_title p) (link_description p)
     (link_image p) (profiles p) (likes p) c.

(** [p.likes?.length || 0] *)
Definition likes_length (p : t) : Z :=
  match likes p with Some l => Z.of_nat (length l) | None => 0 end.

(** [p.comments?.length || 0] *)
Definition comments_length (p : t) : Z :=
  match comments p with Some l => Z.of_nat (length l) | None => 0 end.

(** [p.likes || []] *)
Definition likes_or_empty (p : t) : list Like.t := default [] (likes p).

(** [p.comments || []] *)
Definition comments_or_empty (p : t) : list Comment.t := default [] (comments p).
End Post.

(** [Partial<Post>]: [None] is an absent key. *)
Module PartialPost.
Record t := mk {
  id : option string;
  user_id : option string;
  created_at : option string;
  post_type : option string;
  content : option (option string);
  resource_title : option (option string);
  resource_category : option (option string);
  resource_contact : option (option string);
  image_url : option (option string);
  link_url : option (option string);
  link_title : option (option string);
  link_description : option (option string);
  link_image : option (option string);
  profiles : option (option Profile.t);
  likes : option (option (list Like.t));
  comments : option (option (list Comment.t))
}.

Definition empty : t :=
  mk None None None None None None None None None None None None None None None None.

(** [{ likes: l }] *)
Definition of_likes (l : list Like.t) : t :=
  mk None None None None None None None None None None None None None None
     (Some (Some l)) None.

(** The object a whole row spreads as: every column is a present key; the
    joined collections are present when [joined]. *)
Definition of_row (joined : bool) (p : Post.t) : t :=
  mk (Some (Post.id p)) (Some (Post.user_id p)) (Some (Post.created_at p))
     (Some (Post.post_type p)) (Some (Post.content p))
     (Some (Post.resource_title p)) (Some (Post.resource_category p))
     (Some (Post.resource_contact p)) (Some (Post.image_url p))
     (Some (Post.link_url p)) (Some (Post.link_title p))
     (Some (Post.link_description p)) (Some (Post.link_image p))
     (if joined then Some (Post.profiles p) else None)
     (if joined then Some (Post.likes p) else None)
     (if joined then Some (Post.comments p) else None).

(** [{ ...p, ...d }]: the keys of [d] win. *)
Definition spread (p : Post.t) (d : t) : Post.t :=
  Post.mk
    (default (Post.id p) (id d))
    (default (Post.user_id p) (user_id d))
    (default (Post.created_at p) (created_at d))
    (default (Post.post_type p) (post_type d))
    (default (Post.content p) (content d))
    (default (Post.resource_title p) (resource_title d))
    (default (Post.resource_category p) (resource_category d))
    (default (Post.resource_contact p) (resource_contact d))
    (default (Post.image_url p) (image_url d))
    (default (Post.link_url p) (link_url d))
    (default (Post.link_title p) (link_title d))
    (default (Post.link_description p) (link_description d))
    (default (Post.link_image p) (link_image d))
    (default (Post.profiles p) (profiles d))
    (default (Post.likes p) (likes d))
    (default (Post.comments p) (comments d)).
End PartialPost.

(* ===================================================================== *)
(** * Feed state container *)
(* ===================================================================== *)

Section Container.
Implicit Types (posts prevPosts : list Post.t) (postId : string).

(** [prevPosts.map(p => (p.id === postId ? { ...p, ...newPostData } : p))] *)
Definition updatePostInState postId (newPostData : PartialPost.t) prevPosts : list Post.t :=
  (λ p, if decide (Post.id p = postId) then PartialPost.spread p newPostData else p)
    <$> prevPosts.

(** [prevPosts.filter(p => p.id !== postId)] *)
Definition removePostFromState postId prevPosts : list Post.t :=
  filter (λ p, Post.id p ≠ postId) prevPosts.

(** [[newPost, ...prevPosts]] *)
Definition addPostToState (newPost : Post.t) prevPosts : list Post.t :=
  newPost :: prevPosts.

End Container.

(* ===================================================================== *)
(** * Filter/sort projection *)
(* ===================================================================== *)

Module Array.
Section Sort.
Context {A : Type}.

(** How [Array.prototype.sort] reads the comparator's value [v] for the pair
    [(a, b)]: [a] may stay before [b] unless [v > 0]; [NaN] counts as [+0]. *)
Definition keeps_order (v : Js.number) : bool :=
  match v with
  | Some z => bool_decide (z ≤ 0)
  | None => true
  end.

Fixpoint insert (compareFn : A → A → Js.number) (x : A) (l : list A) : list A :=
  match l with
  | [] => [x]
  | y :: l' =>
      if keeps_order (compareFn x y) then x :: l else y :: insert compareFn x l'
  end.

(** [l.sort(compareFn)]: the sort is stable (ECMAScript 2019); for a
    consistent comparator every conforming implementation returns this
    list. *)
Definition sort (compareFn : A → A → Js.number) (l : list A) : list A :=
  foldr (insert compareFn) [] l.

End Sort.
End Array.

Section Projection.
Context `{Builtins}.

(** [new Date(p.created_at).getTime()] *)
Definition getTime (p : Post.t) : Js.number := Date_getTime (Post.created_at p).

(** [field?.toLowerCase().includes(searchQuery.toLowerCase())], as a
    condition. *)
Definition field_matches (searchQuery : string) (field : option string) : bool :=
  match field with
  | Some s => Js.includes (toLowerCase s) (toLowerCase searchQuery)
  | None => false
  end.

(** The predicate of the search [filter]. *)
Definition matches_search (searchQuery : string) (post : Post.t) : bool :=
  field_matches searchQuery (Post.content post) ||
  field_matches searchQuery (Post.resource_title post) ||
  field_matches searchQuery (Post.profiles post ≫= Profile.username).

(** The comparator of [sortBy === 'likes']. *)
Definition compare_likes (a b : Post.t) : Js.number :=
  let likesA := Post.likes_length a in
  let likesB := Post.likes_length b in
  if decide (likesB ≠ likesA) then Some (likesB - likesA)
  else Js.minus (getTime b) (getTime a).

(** The comparator of [sortBy === 'comments']. *)
Definition compare_comments (a b : Post.t) : Js.number :=
  let commentsA := Post.comments_length a in
  let commentsB := Post.comments_length b in
  if decide (commentsB ≠ commentsA) then Some (commentsB - commentsA)
  else Js.minus (getTime b) (getTime a).

(** The comparator of every other sort key. *)
Definition compare_created_at (a b : Post.t) : Js.number :=
  Js.minus (getTime b) (getTime a).

Definition comparator (sortBy : string) : Post.t → Post.t → Js.number :=
  if decide (sortBy = "likes") then compare_likes
  else if decide (sortBy = "comments") then compare_comments
  else compare_created_at.

Definition search_step (searchQuery : string) (posts : list Post.t) : list Post.t :=
  if Js.truthy searchQuery
  then filter (λ post, matches_search searchQuery post = true) posts
  else posts.

Definition type_step (filter_ : string) (posts : list Post.t) : list Post.t :=
  if decide (filter_ ≠ "all")
  then filter (λ post, Post.post_type post = filter_) posts
  else posts.

(** The value of the memo [filteredAndSortedPosts]. *)
Definition filteredAndSortedPosts
    (posts : list Post.t) (searchQuery filter_ sortBy : string) : list Post.t :=
  Array.sort (comparator sortBy) (type_step filter_ (search_step searchQuery posts)).

(** [sort] works in place, and [result] is the state array itself unless a
    [filter] call has copied it: the array held in [posts] after the memo
    has run. *)
Definition posts_after_projection
    (posts : list Post.t) (searchQuery filter_ sortBy : string) : list Post.t :=
  if Js.truthy searchQuery || bool_decide (filter_ ≠ "all") then posts
  else filteredAndSortedPosts posts searchQuery filter_ sortBy.

End Projection.

(* ===================================================================== *)
(** * Effects of the handlers *)
(* ===================================================================== *)

Module JsError.
(** What a rejected call throws, or the [error] of a resolved one. *)
Record t := mk { message : option string }.
End JsError.

(** How an awaited call of the data-access interface ends: it resolves to
    [{ error }], or the promise rejects. *)
Inductive outcome :=
| Resolved (error : option JsError.t)
| Rejected (reason : JsError.t).

Inductive remote_call :=
| LikesDelete (post_id user_id : string)
| LikesInsert (post_id user_id : string)
| CommentsInsert (post_id user_id content : string)
| CreateNotification (p_user_id p_type p_actor_id p_post_id : string).

Inductive toast_kind := ToastError | ToastInfo | ToastSuccess.

Inductive effect :=
| SetPosts (f : list Post.t → list Post.t)
| SetNewComments (f : gmap string string → gmap string string)
| SetDonorDetails (d : option Post.t)
| Toast (kind : toast_kind) (msg : string)
| FetchPosts
| RouterPush (href : string)
| Remote (call : remote_call).

(** The values [Date.now()], [new Date().toISOString()] and
    [Math.random()] (as it prints) have when a handler runs. *)
Module Clock.
Record t := mk {
  Date_now : Z;
  toISOString : string;
  Math_random : string
}.
End Clock.

(** An [async] body inside [try]: the effects so far, and either the value
    or what was thrown. *)
Definition Async (A : Type) : Type := list effect * (JsError.t + A).

Global Instance Async_ret : MRet Async := λ A x, ([], inr x).
Global Instance Async_bind : MBind Async := λ A B k m,
  match m with
  | (es, inl err) => (es, inl err)
  | (es, inr x) => let '(es', r) := k x in (es ++ es', r)
  end.

Definition emit (e : effect) : Async unit := ([e], inr tt).
Definition throw {A} (err : JsError.t) : Async A := ([], inl err).

(** [await call]: the call is issued; a rejection is thrown. *)
Definition await (call : remote_call) (o : outcome) : Async (option JsError.t) :=
  match o with
  | Resolved error => ([Remote call], inr error)
  | Rejected reason => ([Remote call], inl reason)
  end.

(** [try { body } catch (error) { handler }] *)
Definition try_catch {A} (body : Async A) (handler : JsError.t → Async A) : Async A :=
  match body with
  | (es, inl err) => let '(es', r) := handler err in (es ++ es', r)
  | (es, inr x) => (es, inr x)
  end.

(** The effects a handler has performed when its promise settles. *)
Definition trace {A} (m : Async A) : list effect := m.1.

(* ===================================================================== *)
(** * Realtime subscription adapter *)
(* ===================================================================== *)

Inductive realtime_event :=
| PostsInsert (new : Post.t)
| PostsUpdate (new : Post.t)
| PostsDelete (old_id : string)
| LikesChange
| CommentsChange.

(** The callbacks registered on the channel ['posts_feed']. An update spreads
    the pushed row, which carries the columns of the table only. *)
Definition on_realtime_event (ev : realtime_event) : list effect :=
  match ev with
  | PostsInsert newPost => [SetPosts (addPostToState newPost)]
  | PostsUpdate updatedPost =>
      [SetPosts (updatePostInState (Post.id updatedPost)
                   (PartialPost.of_row false updatedPost))]
  | PostsDelete old_id => [SetPosts (removePostFromState old_id)]
  | LikesChange => [FetchPosts]
  | CommentsChange => [FetchPosts]
  end.

(** The component state the handlers write. *)
Module FeedState.
Record t := mk {
  posts : list Post.t;
  newComments : gmap string string;
  donorDetails : option Post.t
}.
End FeedState.

Definition apply_effect (e : effect) (st : FeedState.t) : FeedState.t :=
  match e with
  | SetPosts f =>
      FeedState.mk (f (FeedState.posts st)) (FeedState.newComments st) (FeedState.donorDetails st)
  | SetNewComments f =>
      FeedState.mk (FeedState.posts st) (f (FeedState.newComments st)) (FeedState.donorDetails st)
  | SetDonorDetails d =>
      FeedState.mk (FeedState.posts st) (FeedState.newComments st) d
  | _ => st
  end.

(** The state after a trace has run with nothing in between. *)
Definition apply_effects (es : list effect) (st : FeedState.t) : FeedState.t :=
  foldl (λ st e, apply_effect e st) st es.

(* ===================================================================== *)
(** * Interaction handlers *)
(* ===================================================================== *)

Section Handlers.
Variables (user : option User.t) (profile : option Profile.t).

(** [post.likes?.some(like => like.user_id === user.id)], as a condition. *)
Definition hasLiked (u : User.t) (post : Post.t) : bool :=
  match Post.likes post with
  | Some likes => existsb (λ like, bool_decide (Like.user_id like = User.id u)) likes
  | None => false
  end.

(** The like record the handler makes up. *)
Definition synthesizedLike (u : User.t) (clock : Clock.t) (post : Post.t) : Like.t :=
  Like.mk (Clock.Date_now clock) (Post.id post) (User.id u) (Clock.toISOString clock).

Definition optimisticLikes (u : User.t) (clock : Clock.t) (post : Post.t)
    : option (list Like.t) :=
  if hasLiked u post
  then filter (λ l, Like.user_id l ≠ User.id u) <$> Post.likes post
  else Some (Post.likes_or_empty post ++ [synthesizedLike u clock post]).

(** The optimistic apply of the like toggle. *)
Definition applyLikeToggle (u : User.t) (clock : Clock.t) (post : Post.t)
    : list Post.t → list Post.t :=
  updatePostInState (Post.id post)
    (PartialPost.mk None None None None None None None None None None None None
       None None (Some (optimisticLikes u clock post)) None).

Definition handleLikeToggle (clock : Clock.t) (post : Post.t)
    (r_likes r_notification : outcome) : list effect :=
  match user, profile with
  | Some u, Some _ =>
      trace (
        emit (SetPosts (applyLikeToggle u clock post));;
        try_catch
          (if hasLiked u post then
             _ ← await (LikesDelete (Post.id post) (User.id u)) r_likes;
             mret tt
           else
             _ ← await (LikesInsert (Post.id post) (User.id u)) r_likes;
             if decide (Post.user_id post ≠ User.id u) then
               _ ← await (CreateNotification (Post.user_id post) "like"
                            (User.id u) (Post.id post)) r_notification;
               mret tt
             else mret tt)
          (λ error,
             emit (Toast ToastError
                     (Js.or_else (JsError.message error) "Could not update like."));;
             emit FetchPosts))
  | _, _ => [Toast ToastInfo "Please sign in to like posts."]
  end.

(** The comment record the handler makes up; its identifier is
    [`${Date.now()}-${Math.random()}`]. *)
Definition optimisticComment (u : User.t) (prof : Profile.t) (clock : Clock.t)
    (postId commentText : string) : Comment.t :=
  Comment.mk (pretty (Clock.Date_now clock) +:+ "-" +:+ Clock.Math_random clock)
    postId (User.id u) commentText (Clock.toISOString clock) (Some prof).

(** The optimistic apply of a comment. *)
Definition appendComment (postId : string) (c : Comment.t) (prevPosts : list Post.t)
    : list Post.t :=
  (λ p, if decide (Post.id p = postId)
        then Post.with_comments (Some (Post.comments_or_empty p ++ [c])) p
        else p) <$> prevPosts.

(** The rollback of a comment whose insert came back with an error. *)
Definition removeComment (postId : string) (commentId : string) (prevPosts : list Post.t)
    : list Post.t :=
  (λ p, if decide (Post.id p = postId)
        then Post.with_comments
               (filter (λ c, Comment.id c ≠ commentId) <$> Post.comments p) p
        else p) <$> prevPosts.

(** [posts] and [newComments] are the state the handler closed over. *)
Definition handleAddComment (clock : Clock.t) (posts : list Post.t)
    (newComments : gmap string string) (postId : string)
    (r_comments r_notification : outcome) : list effect :=
  let commentText := Js.trim <$> newComments !! postId in
  match user, commentText, profile with
  | Some u, Some commentText, Some prof =>
      if Js.truthy commentText then
        let c := optimisticComment u prof clock postId commentText in
        trace (
          emit (SetPosts (appendComment postId c));;
          emit (SetNewComments (λ prev, <[postId := ""]> prev));;
          try_catch
            (error ← await (CommentsInsert postId (User.id u) commentText) r_comments;
             match error with
             | Some error =>
                 emit (SetPosts (removeComment postId (Comment.id c)));;
                 throw error
             | None =>
                 match list_find (λ p, Post.id p = postId) posts with
                 | Some (_, post) =>
                     if decide (Post.user_id post ≠ User.id u) then
                       _ ← await (CreateNotification (Post.user_id post) "comment"
                                    (User.id u) postId) r_notification;
                       mret tt
                     else mret tt
                 | None => mret tt
                 end;;
                 emit FetchPosts
             end)
            (λ error,
               emit (Toast ToastError
                       (Js.or_else (JsError.message error) "Failed to add comment."))))
      else [Toast ToastInfo "Please sign in and write a comment."]
  | _, _, _ => [Toast ToastInfo "Please sign in and write a comment."]
  end.

(** [profile?.role !== 'student'] *)
Definition not_student : bool :=
  match profile with
  | Some prof => bool_decide (Profile.role prof ≠ "student")
  | None => true
  end.

(** [profile.verification_status !== 'verified'], read once the role test
    has shown that there is a profile. *)
Definition not_verified : bool :=
  match profile with
  | Some prof => bool_decide (Profile.verification_status prof ≠ "verified")
  | None => true
  end.

Definition handleClaimResourceClick (post : Post.t) : list effect :=
  match user with
  | None => [Toast ToastError "You must be signed in to claim resources."]
  | Some _ =>
      if not_student then [Toast ToastError "Only students can claim resources."]
      else if not_verified then
        [Toast ToastError
           "You must be a verified student to claim resources. Please verify your profile.";
         RouterPush "/?page=verification"]
      else [SetDonorDetails (Some post)]
  end.

Definition isClaimButtonDisabled (currentPost : Post.t) : bool :=
  match user with
  | None => true
  | Some u =>
      if not_student then true
      else if not_verified then true
      else if decide (Post.user_id currentPost = User.id u) then true
      else false
  end.

Definition claimButtonTooltip (currentPost : Post.t) : string :=
  match user with
  | None => "Sign in to claim resources"
  | Some u =>
      if not_student then "Only students can claim resources"
      else if not_verified then "Verify your student profile to claim resources"
      else if decide (Post.user_id currentPost = User.id u)
           then "You cannot claim your own resource"
      else "Claim this resource"
  end.

(** A click on the rendered claim button, [onClick] behind [disabled]. *)
Definition clickClaimButton (post : Post.t) : list effect :=
  if isClaimButtonDisabled post then [] else handleClaimResourceClick post.

End Handlers.

(* ===================================================================== *)
(** * Observations used in the statements *)
(* ===================================================================== *)

(** The users holding a like on a post. *)
Definition likers (p : Post.t) : gset string :=
  list_to_set (Like.user_id <$> Post.likes_or_empty p).

(** How many posts of a collection carry an identifier. *)
Definition count_id (postId : string) (posts : list Post.t) : nat :=
  length (filter (λ p, Post.id p = postId) posts).

(** [sub] occurs in [s] as a contiguous run. *)
Definition substring_of (sub s : string) : Prop :=
  ∃ pre suf, s = pre +:+ sub +:+ suf.

(** [searchQuery] occurs in [s] once both are in lower case. *)
Definition ci_substring_of `{Builtins} (searchQuery s : string) : Prop :=
  substring_of (toLowerCase searchQuery) (toLowerCase s).

(** The texts of a post the search looks at. *)
Definition searched_fields (post : Post.t) : list string :=
  option_list (Post.content post) ++
  option_list (Post.resource_title post) ++
  option_list (Post.profiles post ≫= Profile.username).

(** A comparator that orders by a count, larger first, then by creation
    time, later first: the shape of [compare_likes] and
    [compare_comments]. *)
Definition compare_count_then_time `{Builtins} (count : Post.t → Z) (a b : Post.t)
    : Js.number :=
  if decide (count b ≠ count a) then Some (count b - count a)
  else Js.minus (getTime b) (getTime a).

(** Under the comparator, [a] may stand before [b]. *)
Definition may_precede {A} (compareFn : A → A → Js.number) (a b : A) : Prop :=
  Array.keeps_order (compareFn a b) = true.

(** The creation time of the post parses. *)
Definition dated `{Builtins} (p : Post.t) : Prop := is_Some (getTime p).

(** No effect of a trace asks for a refetch. *)
Definition no_refetch (es : list effect) : Prop := FetchPosts ∉ es.

(** No effect of a trace tells the user anything. *)
Definition no_toast (es : list effect) : Prop := ∀ kind msg, Toast kind msg ∉ es.

(* ===================================================================== *)
(** * Sample data *)
(* ===================================================================== *)

Module Sample.

(** Builtins on the strings of the samples: ASCII lower-casing, and the
    epoch milliseconds of three timestamps. *)
Definition builtins : Builtins := {|
  toLowerCase := Js.string_map Js.ascii_toLowerCase;
  Date_getTime s :=
    if decide (s = "2024-01-01T00:00:00.000Z") then Some 1704067200000
    else if decide (s = "2024-01-02T00:00:00.000Z") then Some 1704153600000
    else if decide (s = "2024-01-03T00:00:00.000Z") then Some 1704240000000
    else None
|}.

Definition T1 : string := "2024-01-01T00:00:00.000Z".
Definition T2 : string := "2024-01-02T00:00:00.000Z".
Definition T3 : string := "2024-01-03T00:00:00.000Z".

Definition ann : User.t := User.mk "ann".
Definition bob : User.t := User.mk "bob".

Definition student : Profile.t :=
  Profile.mk (Some "Ann") None None "student" "verified".

Definition clock : Clock.t := Clock.mk 1704070000000 "2024-01-01T00:46:40.000Z" "0.25".
Definition clock' : Clock.t := Clock.mk 1704070001000 "2024-01-01T00:46:41.000Z" "0.75".

Definition post (id user_id created_at post_type : string) (content : option string)
    (likes : option (list Like.t)) (comments : option (list Comment.t)) : Post.t :=
  Post.mk id user_id created_at post_type content None None None None None None
    None None None likes comments.

Definition like (id : Z) (post_id user_id : string) : Like.t :=
  Like.mk id post_id user_id T1.

Definition comment (id post_id user_id content : string) : Comment.t :=
  Comment.mk id post_id user_id content T1 None.

(** A donation of books by [ann]. *)
Definition donation : Post.t :=
  Post.mk "d1" "ann" T1 "donation" None (Some "Algebra textbooks") (Some "books")
    (Some "ann@example.org") None None None None None None (Some []) (Some []).

Definition state (posts : list Post.t) : FeedState.t := FeedState.mk posts ∅ None.

End Sample.

(* ===================================================================== *)
(** * The rest of the component: loading, composer, editing, deleting *)
(* ===================================================================== *)

(** [a || null] on an optional string. *)
Definition or_null (a : option string) : option string :=
  match a with
  | Some s => if Js.truthy s then Some s else None
  | None => None
  end.

Module File.
Record t := mk { name : string }.
End File.

(** The object [postData] of [handlePostSubmit]; [None] is a key that is
    absent or [undefined]. *)
Module PostData.
Record t := mk {
  user_id : string;
  post_type : string;
  link_url : option string;
  content : option string;
  link_title : option string;
  link_description : option string;
  link_image : option string;
  resource_title : option string;
  resource_category : option string;
  resource_contact : option string;
  image_url : option string
}.
End PostData.

(** The five fields an edit writes, locally and in the store. *)
Module PostEdit.
Record t := mk {
  content : string;
  link_url : option string;
  link_title : option string;
  link_description : option string;
  link_image : option string
}.

(** The same fields as the object [updatePostInState] spreads: all five keys
    are present, [null] where there is no value. *)
Definition as_partial (e : t) : PartialPost.t :=
  PartialPost.mk None None None None (Some (Some (content e))) None None None None
    (Some (link_url e)) (Some (link_title e)) (Some (link_description e))
    (Some (link_image e)) None None None.
End PostEdit.

(** The calls of the data-access interface the other handlers make. *)
Inductive store_call :=
| SelectPosts
| UploadImage (filePath : string) (file : File.t)
| InsertPost (postData : PostData.t)
| DeletePost (id user_id : string)
| UpdatePost (fields : PostEdit.t) (id user_id : string).

(** The effects of the whole component: those of the feed handlers, and the
    writes of the remaining state. *)
Inductive ui_effect :=
| Feed (e : effect)
| Store (call : store_call)
| ConsoleError
| SetLoading (b : bool)
| SetSubmitting (b : bool)
| SetContent (s : string)
| SetResourceTitle (s : string)
| SetResourceCategory (s : string)
| SetResourceContact (s : string)
| SetPostImageFile (f : option File.t)
| SetLinkPreview (p : option LinkPreview.t)
| SetLoadingLinkPreview (b : bool)
| SetEditingPost (p : option Post.t)
| SetEditedContent (s : string)
| SetPostToDelete (p : option Post.t)
| SetExpandedComments (f : gmap string bool → gmap string bool).

(** An [async] body over the effects of the whole component. *)
Definition Ui (A : Type) : Type := list ui_effect * (JsError.t + A).

Global Instance Ui_ret : MRet Ui := λ A x, ([], inr x).
Global Instance Ui_bind : MBind Ui := λ A B k m,
  match m with
  | (es, inl err) => (es, inl err)
  | (es, inr x) => let '(es', r) := k x in (es ++ es', r)
  end.

Definition ui_emit (e : ui_effect) : Ui unit := ([e], inr tt).
Definition ui_throw {A} (err : JsError.t) : Ui A := ([], inl err).

Definition ui_await (call : store_call) (o : outcome) : Ui (option JsError.t) :=
  match o with
  | Resolved error => ([Store call], inr error)
  | Rejected reason => ([Store call], inl reason)
  end.

(** [try { body } catch (error) { handler }] *)
Definition ui_try_catch {A} (body : Ui A) (handler : JsError.t → Ui A) : Ui A :=
  match body with
  | (es, inl err) => let '(es', r) := handler err in (es ++ es', r)
  | (es, inr x) => (es, inr x)
  end.

(** [try { ... } finally { cleanup }], for a cleanup that does not throw. *)
Definition ui_finally {A} (body : Ui A) (cleanup : list ui_effect) : Ui A :=
  (body.1 ++ cleanup, body.2).

Definition ui_trace {A} (m : Ui A) : list ui_effect := m.1.

(** How the query of [fetchPosts] ends. *)
Inductive fetch_outcome :=
| FetchResolved (data : option (list Post.t)) (error : option JsError.t)
| FetchRejected (reason : JsError.t).

Definition fetchPosts (r : fetch_outcome) : list ui_effect :=
  ui_trace
    (ui_finally
       (ui_try_catch
          (match r with
           | FetchResolved data error =>
               ui_emit (Store SelectPosts);;
               match error with
               | Some error => ui_throw error
               | None => ui_emit (Feed (SetPosts (λ _, default [] data)))
               end
           | FetchRejected reason => ui_emit (Store SelectPosts);; ui_throw reason
           end)
          (λ error,
             ui_emit ConsoleError;;
             ui_emit (Feed (Toast ToastError "Could not fetch posts."))))
       [SetLoading false]).

(** The body of the effect on [content], once its timer has fired. *)
Definition linkPreviewEffect (content : string) : list ui_effect :=
  match Regex.exec URL_REGEX content with
  | Some foundUrl =>
      [SetLoadingLinkPreview true;
       SetLinkPreview (Some (fetchRichLinkPreview foundUrl));
       SetLoadingLinkPreview false]
  | None => [SetLinkPreview None]
  end.

(** The composer state [handlePostSubmit] reads. *)
Module Composer.
Record t := mk {
  composerType : string;
  content : string;
  resourceTitle : string;
  resourceCategory : string;
  resourceContact : string;
  postImageFile : option File.t;
  submitting : bool;
  linkPreview : option LinkPreview.t
}.
End Composer.

Section MoreHandlers.
Variables (user : option User.t) (profile : option Profile.t).

(** [postData] after the three blocks that fill it, or the message of the
    validation that stopped the handler. *)
Definition buildPostData (u : User.t) (c : Composer.t) : string + PostData.t :=
  let composerType := Composer.composerType c in
  let linkPreview := Composer.linkPreview c in
  let is_wisdom := bool_decide (composerType = "wisdom") in
  let is_donation := bool_decide (composerType = "donation") in
  let is_resource := bool_decide (composerType = "donation" ∨ composerType = "seeking") in
  let resource_title := Js.trim (Composer.resourceTitle c) in
  let resource_category := Composer.resourceCategory c in
  let resource_contact := Js.trim (Composer.resourceContact c) in
  if is_resource && (negb (Js.truthy resource_title) || negb (Js.truthy resource_category))
  then inl "Please fill out resource title and category."
  else if is_donation && negb (Js.truthy resource_contact)
  then inl "Please provide contact info for donation."
  else inr (PostData.mk (User.id u) composerType
              (Regex.exec URL_REGEX (Composer.content c))
              (if is_wisdom then Some (Js.trim (Composer.content c)) else None)
              (if is_wisdom then LinkPreview.title <$> linkPreview else None)
              (if is_wisdom then linkPreview ≫= LinkPreview.description else None)
              (if is_wisdom then linkPreview ≫= LinkPreview.image else None)
              (if is_resource then Some resource_title else None)
              (if is_resource then Some resource_category else None)
              (if is_donation then Some resource_contact else None)
              None).

(** The six setters that empty the composer. *)
Definition clearComposer : list ui_effect :=
  [SetContent ""; SetResourceTitle ""; SetResourceCategory "";
   SetResourceContact ""; SetPostImageFile None; SetLinkPreview None].

Definition with_image_url (imageUrl : option string) (d : PostData.t) : PostData.t :=
  PostData.mk (PostData.user_id d) (PostData.post_type d) (PostData.link_url d)
    (PostData.content d) (PostData.link_title d) (PostData.link_description d)
    (PostData.link_image d) (PostData.resource_title d) (PostData.resource_category d)
    (PostData.resource_contact d) imageUrl.

(** [`${user.id}/${Date.now()}_${postImageFile.name}`] *)
Definition uploadPath (u : User.t) (clock : Clock.t) (file : File.t) : string :=
  User.id u +:+ "/" +:+ pretty (Clock.Date_now clock) +:+ "_" +:+ File.name file.

(** [getPublicUrl] is the store's map from a path to its public address. *)
Definition handlePostSubmit (clock : Clock.t) (getPublicUrl : string → string)
    (c : Composer.t) (r_upload r_insert : outcome) : list ui_effect :=
  match user, profile with
  | Some u, Some _ =>
      if Composer.submitting c then []
      else
        SetSubmitting true ::
        match buildPostData u c with
        | inl msg => [Feed (Toast ToastError msg); SetSubmitting false]
        | inr postData =>
            clearComposer ++
            ui_trace
              (ui_finally
                 (ui_try_catch
                    (imageUrl ←
                       match Composer.postImageFile c with
                       | Some file =>
                           let filePath := uploadPath u clock file in
                           uploadError ← ui_await (UploadImage filePath file) r_upload;
                           match uploadError with
                           | Some uploadError => ui_throw uploadError
                           | None => mret (Some (getPublicUrl filePath))
                           end
                       | None => mret None
                       end;
                     error ← ui_await (InsertPost (with_image_url imageUrl postData)) r_insert;
                     match error with
                     | Some error => ui_throw error
                     | None => ui_emit (Feed (Toast ToastSuccess "Post created successfully!"))
                     end)
                    (λ error,
                       ui_emit (Feed (Toast ToastError
                                  (Js.or_else (JsError.message error) "Failed to create post.")))))
                 [SetSubmitting false])
        end
  | _, _ => []
  end.

(** The [disabled] of the Post button. *)
Definition postButtonDisabled (c : Composer.t) : bool :=
  let composerType := Composer.composerType c in
  Composer.submitting c
  || (bool_decide (composerType = "wisdom")
      && negb (Js.truthy (Js.trim (Composer.content c))))
  || (bool_decide (composerType = "donation" ∨ composerType = "seeking")
      && (negb (Js.truthy (Js.trim (Composer.resourceTitle c)))
          || negb (Js.truthy (Composer.resourceCategory c))))
  || (bool_decide (composerType = "donation")
      && negb (Js.truthy (Js.trim (Composer.resourceContact c)))).

Definition handleDeletePost (postToDelete : option Post.t) (r_delete : outcome)
    : list ui_effect :=
  match postToDelete, user with
  | Some post, Some u =>
      let postIdToDelete := Post.id post in
      ui_trace (
        ui_emit (Feed (SetPosts (removePostFromState postIdToDelete)));;
        ui_emit (SetPostToDelete None);;
        ui_try_catch
          (error ← ui_await (DeletePost postIdToDelete (User.id u)) r_delete;
           match error with
           | Some error => ui_emit (Feed FetchPosts);; ui_throw error
           | None => ui_emit (Feed (Toast ToastSuccess "Post deleted."))
           end)
          (λ error,
             ui_emit (Feed (Toast ToastError
                        (Js.or_else (JsError.message error) "Failed to delete post.")))))
  | _, _ => []
  end.

(** The click itself. With an address in the text it only raises the loading
    flag and starts [fetchRichLinkPreview]; the preview is written later, by
    the callback below. *)
Definition handleEditClick (post : Post.t) : list ui_effect :=
  SetEditingPost (Some post)
  :: SetEditedContent (Js.or_else (Post.content post) "")
  :: match Post.content post ≫= Regex.exec URL_REGEX with
     | Some foundUrl => [SetLoadingLinkPreview true]
     | None => [SetLinkPreview None]
     end.

(** The [.then] callback of the promise [handleEditClick] starts: it runs
    once the promise of [fetchRichLinkPreview] has resolved, half a second
    after the click at the earliest, and whatever has been done to the state
    in between. Without an address in the text no promise is started. *)
Definition handleEditClick_then (post : Post.t) : list ui_effect :=
  match Post.content post ≫= Regex.exec URL_REGEX with
  | Some foundUrl =>
      let preview := fetchRichLinkPreview foundUrl in
      [SetLinkPreview (Some preview); SetLoadingLinkPreview false]
  | None => []
  end.

Definition handleCancelEdit : list ui_effect :=
  [SetEditingPost None; SetEditedContent ""; SetLinkPreview None;
   SetLoadingLinkPreview false].

(** The fields [handleUpdatePost] writes, twice: in the state and in the
    store. *)
Definition editedFields (editedContent : string) (linkPreview : option LinkPreview.t)
    : PostEdit.t :=
  PostEdit.mk editedContent
    (Regex.exec URL_REGEX editedContent)
    (or_null (LinkPreview.title <$> linkPreview))
    (or_null (linkPreview ≫= LinkPreview.description))
    (or_null (linkPreview ≫= LinkPreview.image)).

Definition handleUpdatePost (editingPost : option Post.t) (editedContent : string)
    (linkPreview : option LinkPreview.t) (r_update : outcome) : list ui_effect :=
  match editingPost, user with
  | Some post, Some u =>
      let fields := editedFields editedContent linkPreview in
      Feed (SetPosts (updatePostInState (Post.id post) (PostEdit.as_partial fields)))
      :: handleCancelEdit ++
      ui_trace
        (ui_try_catch
           (error ← ui_await (UpdatePost fields (Post.id post) (User.id u)) r_update;
            match error with
            | Some error => ui_emit (Feed FetchPosts);; ui_throw error
            | None => ui_emit (Feed (Toast ToastSuccess "Post updated."))
            end)
           (λ error,
              ui_emit (Feed (Toast ToastError
                         (Js.or_else (JsError.message error) "Failed to update post.")))))
  | _, _ => []
  end.

End MoreHandlers.

(** [{ ...prev, [postId]: !prev[postId] }] *)
Definition toggleComments (postId : string) : list ui_effect :=
  [SetExpandedComments (λ prev, <[postId := negb (default false (prev !! postId))]> prev)].

(** [{ ...prev, [postId]: text }] *)
Definition handleCommentChange (postId text : string) : list ui_effect :=
  [Feed (SetNewComments (λ prev, <[postId := text]> prev))].

(** [expandedComments[post.id]], as a condition. *)
Definition commentsExpanded (expandedComments : gmap string bool) (postId : string) : bool :=
  default false (expandedComments !! postId).

(** The state of the whole component. *)
Module UiState.
Record t := mk {
  feed : FeedState.t;
  loading : bool;
  composer : Composer.t;
  loadingLinkPreview : bool;
  editingPost : option Post.t;
  editedContent : string;
  postToDelete : option Post.t;
  expandedComments : gmap string bool
}.
End UiState.

Definition set_composer (f : Composer.t → Composer.t) (st : UiState.t) : UiState.t :=
  UiState.mk (UiState.feed st) (UiState.loading st) (f (UiState.composer st))
    (UiState.loadingLinkPreview st) (UiState.editingPost st) (UiState.editedContent st)
    (UiState.postToDelete st) (UiState.expandedComments st).

Definition apply_ui_effect (e : ui_effect) (st : UiState.t) : UiState.t :=
  let c := UiState.composer st in
  match e with
  | Feed e =>
      UiState.mk (apply_effect e (UiState.feed st)) (UiState.loading st) c
        (UiState.loadingLinkPreview st) (UiState.editingPost st) (UiState.editedContent st)
        (UiState.postToDelete st) (UiState.expandedComments st)
  | Store _ | ConsoleError => st
  | SetLoading b =>
      UiState.mk (UiState.feed st) b c
        (UiState.loadingLinkPreview st) (UiState.editingPost st) (UiState.editedContent st)
        (UiState.postToDelete st) (UiState.expandedComments st)
  | SetSubmitting b =>
      set_composer (λ c, Composer.mk (Composer.composerType c) (Composer.content c)
        (Composer.resourceTitle c) (Composer.resourceCategory c) (Composer.resourceContact c)
        (Composer.postImageFile c) b (Composer.linkPreview c)) st
  | SetContent s =>
      set_composer (λ c, Composer.mk (Composer.composerType c) s
        (Composer.resourceTitle c) (Composer.resourceCategory c) (Composer.resourceContact c)
        (Composer.postImageFile c) (Composer.submitting c) (Composer.linkPreview c)) st
  | SetResourceTitle s =>
      set_composer (λ c, Composer.mk (Composer.composerType c) (Composer.content c)
        s (Composer.resourceCategory c) (Composer.resourceContact c)
        (Composer.postImageFile c) (Composer.submitting c) (Composer.linkPreview c)) st
  | SetResourceCategory s =>
      set_composer (λ c, Composer.mk (Composer.composerType c) (Composer.content c)
        (Composer.resourceTitle c) s (Composer.resourceContact c)
        (Composer.postImageFile c) (Composer.submitting c) (Composer.linkPreview c)) st
  | SetResourceContact s =>
      set_composer (λ c, Composer.mk (Composer.composerType c) (Composer.content c)
        (Composer.resourceTitle c) (Composer.resourceCategory c) s
        (Composer.postImageFile c) (Composer.submitting c) (Composer.linkPreview c)) st
  | SetPostImageFile f =>
      set_composer (λ c, Composer.mk (Composer.composerType c) (Composer.content c)
        (Composer.resourceTitle c) (Composer.resourceCategory c) (Composer.resourceContact c)
        f (Composer.submitting c) (Composer.linkPreview c)) st
  | SetLinkPreview p =>
      set_composer (λ c, Composer.mk (Composer.composerType c) (Composer.content c)
        (Composer.resourceTitle c) (Composer.resourceCategory c) (Composer.resourceContact c)
        (Composer.postImageFile c) (Composer.submitting c) p) st
  | SetLoadingLinkPreview b =>
      UiState.mk (UiState.feed st) (UiState.loading st) c
        b (UiState.editingPost st) (UiState.editedContent st)
        (UiState.postToDelete st) (UiState.expandedComments st)
  | SetEditingPost p =>
      UiState.mk (UiState.feed st) (UiState.loading st) c
        (UiState.loadingLinkPreview st) p (UiState.editedContent st)
        (UiState.postToDelete st) (UiState.expandedComments st)
  | SetEditedContent s =>
      UiState.mk (UiState.feed st) (UiState.loading st) c
        (UiState.loadingLinkPreview st) (UiState.editingPost st) s
        (UiState.postToDelete st) (UiState.expandedComments st)
  | SetPostToDelete p =>
      UiState.mk (UiState.feed st) (UiState.loading st) c
        (UiState.loadingLinkPreview st) (UiState.editingPost st) (UiState.editedContent st)
        p (UiState.expandedComments st)
  | SetExpandedComments f =>
      UiState.mk (UiState.feed st) (UiState.loading st) c
        (UiState.loadingLinkPreview st) (UiState.editingPost st) (UiState.editedContent st)
        (UiState.postToDelete st) (f (UiState.expandedComments st))
  end.

Definition apply_ui_effects (es : list ui_effect) (st : UiState.t) : UiState.t :=
  foldl (λ st e, apply_ui_effect e st) st es.

(** The posts a state shows. *)
Definition ui_posts (st : UiState.t) : list Post.t := FeedState.posts (UiState.feed st).

(** The store calls of a trace, in order. *)
Definition store_calls (es : list ui_effect) : list store_call :=
  omap (λ e, match e with Store c => Some c | _ => None end) es.

(** The calls the like and comment handlers make, in order. *)
Definition remote_calls (es : list effect) : list remote_call :=
  omap (λ e, match e with Remote c => Some c | _ => None end) es.

(** The updates of the posts a trace makes, in order. *)
Definition posts_writes (es : list effect) : list (list Post.t → list Post.t) :=
  omap (λ e, match e with SetPosts f => Some f | _ => None end) es.

(** The user on whose behalf a call of the like and comment handlers acts. *)
Definition acting_user (c : remote_call) : string :=
  match c with
  | LikesDelete _ user_id => user_id
  | LikesInsert _ user_id => user_id
  | CommentsInsert _ user_id _ => user_id
  | CreateNotification _ _ p_actor_id _ => p_actor_id
  end.

(** A notification addressed to the user who caused it. *)
Definition notifies_self (c : remote_call) : bool :=
  match c with
  | CreateNotification p_user_id _ p_actor_id _ => bool_decide (p_user_id = p_actor_id)
  | _ => false
  end.

(** Sample states of the composer and of the whole component. *)
Module SampleUi.

Definition wisdom : Composer.t :=
  Composer.mk "wisdom" "Read https://wikipedia.org/x today" "" "" "" None false
    (Some (fetchRichLinkPreview "https://wikipedia.org/x")).

Definition donation : Composer.t :=
  Composer.mk "donation" "" " Algebra textbooks " "books" "ann@example.org"
    (Some (File.mk "cover.png")) false None.

Definition donation_without_contact : Composer.t :=
  Composer.mk "donation" "" "Algebra textbooks" "books" "   " None false None.

Definition state (c : Composer.t) (posts : list Post.t) : UiState.t :=
  UiState.mk (Sample.state posts) true c false None "" None ∅.

Definition getPublicUrl (filePath : string) : string :=
  "https://cdn.example.org/post-images/" +:+ filePath.

End SampleUi.

(** The first and the last character of a string. *)
Definition first_char (s : string) : option ascii :=
  match s with "" => None | String c _ => Some c end.

Fixpoint last_char (s : string) : option ascii :=
  match s with
  | "" => None
  | String c "" => Some c
  | String _ s' => last_char s'
  end.

(** Every character of a string satisfies a test. *)
Fixpoint string_forall (p : ascii → bool) (s : string) : bool :=
  match s with
  | "" => true
  | String c s' => p c && string_forall p s'
  end.

(** The language of a regular expression of the fragment: the strings it
    denotes, whatever the order in which a matcher tries them. *)
Inductive regex_matches : Regex.t → string → Prop :=
| matches_char p c :
    p c = true → regex_matches (Regex.Char p) (String c "")
| matches_seq r1 r2 s1 s2 :
    regex_matches r1 s1 → regex_matches r2 s2 →
    regex_matches (Regex.Seq r1 r2) (s1 +:+ s2)
| matches_opt_none r : regex_matches (Regex.Opt r) ""
| matches_opt_some r s : regex_matches r s → regex_matches (Regex.Opt r) s
| matches_star p s :
    string_forall p s = true → regex_matches (Regex.Star p) s.

(** The seven or eight characters every address starts with, in lower
    case. *)
Definition has_scheme (s : string) : bool :=
  let lower := Js.string_map Js.ascii_toLowerCase s in
  Js.startsWith lower "http://" || Js.startsWith lower "https://".





(** Two elements tie under a comparator. *)
Definition tied {A} (compareFn : A → A → Js.number) (x y : A) : bool :=
  Array.keeps_order (compareFn x y) && Array.keeps_order (compareFn y x).

(* ===================================================================== *)
(** * Link extraction and preview *)
(* ===================================================================== *)

(** C9: on the text "Check https://wikipedia.org/x out" the URL pattern
    yields exactly https://wikipedia.org/x, and the preview resolved for
    that URL carries the fixed Wikipedia title. *)
Theorem C9_wikipedia_link_preview :
  Regex.exec URL_REGEX "Check https://wikipedia.org/x out"
    = Some "https://wikipedia.org/x" ∧
  LinkPreview.title <$>
    (fetchRichLinkPreview <$> Regex.exec URL_REGEX "Check https://wikipedia.org/x out")
    = Some "Wikipedia, the free encyclopedia".
Proof. split; vm_compute; reflexivity. Qed.

(** The match is the leftmost one: a second URL in the text is not seen. *)
Example URL_REGEX_first_match :
  Regex.exec URL_REGEX "see http://a.example/1 and https://wikipedia.org/x"
    = Some "http://a.example/1".
Proof. vm_compute; reflexivity. Qed.

(** The scheme matches in either case; the host test of the preview does
    not. *)
Example URL_REGEX_ignores_case :
  Regex.exec URL_REGEX "HTTPS://WIKIPEDIA.ORG/x" = Some "HTTPS://WIKIPEDIA.ORG/x" ∧
  LinkPreview.title (fetchRichLinkPreview "HTTPS://WIKIPEDIA.ORG/x")
    = "HTTPS://WIKIPEDIA.ORG/x".
Proof. split; vm_compute; reflexivity. Qed.

(* ===================================================================== *)
(** * Realtime adapter: the post-insert event *)
(* ===================================================================== *)

Lemma apply_effects_cons e es st :
  apply_effects (e :: es) st = apply_effects es (apply_effect e st).
Proof. reflexivity. Qed.

Lemma count_id_cons postId p posts :
  count_id postId (p :: posts) =
    if decide (Post.id p = postId) then S (count_id postId posts)
    else count_id postId posts.
Proof.
  unfold count_id. rewrite filter_cons.
  destruct (decide (Post.id p = postId)); reflexivity.
Qed.

(** C1 (amended): a post-insert event puts the pushed post at the front of
    the collection whatever the collection holds; the number of posts with
    its identifier grows by one, and nothing else of the state changes. *)
Theorem C1_insert_event_prepends (newPost : Post.t) (st : FeedState.t) :
  let st' := apply_effects (on_realtime_event (PostsInsert newPost)) st in
  FeedState.posts st' = newPost :: FeedState.posts st ∧
  count_id (Post.id newPost) (FeedState.posts st')
    = S (count_id (Post.id newPost) (FeedState.posts st)) ∧
  FeedState.newComments st' = FeedState.newComments st ∧
  FeedState.donorDetails st' = FeedState.donorDetails st.
Proof.
  cbn [on_realtime_event apply_effects foldl apply_effect FeedState.posts
       FeedState.newComments FeedState.donorDetails].
  unfold addPostToState. split_and!; try reflexivity.
  rewrite count_id_cons. by rewrite decide_True.
Qed.

(** C1 (as stated) fails: pushing a post whose identifier the collection
    already holds leaves two posts with that identifier, unmerged. *)
Lemma C1_insert_event_duplicates :
  let p := Sample.post "p1" "ann" Sample.T1 "wisdom" (Some "first") None None in
  let p' := Sample.post "p1" "ann" Sample.T1 "wisdom" (Some "edited") None None in
  let st' := apply_effects (on_realtime_event (PostsInsert p')) (Sample.state [p]) in
  FeedState.posts st' = [p'; p] ∧
  count_id "p1" (FeedState.posts st') = 2%nat ∧
  ¬ NoDup (Post.id <$> FeedState.posts st').
Proof.
  split_and!; [reflexivity | reflexivity |].
  cbn. intros Hnd. apply NoDup_cons in Hnd as [Hnotin _].
  apply Hnotin. left.
Qed.

(** With no post of that identifier in a collection of distinct
    identifiers, the identifiers stay distinct. *)
Lemma insert_event_fresh_NoDup (newPost : Post.t) (posts : list Post.t) :
  Post.id newPost ∉ Post.id <$> posts →
  NoDup (Post.id <$> posts) →
  NoDup (Post.id <$> addPostToState newPost posts).
Proof. intros Hfresh Hnd. unfold addPostToState. cbn. by apply NoDup_cons. Qed.

(* ===================================================================== *)
(** * Resource claim *)
(* ===================================================================== *)

Section Claim.
Variables (profile : option Profile.t) (post : Post.t).

(** An unauthenticated caller is told to sign in, and nothing is revealed. *)
Lemma handleClaimResourceClick_unauthenticated :
  handleClaimResourceClick None profile post
    = [Toast ToastError "You must be signed in to claim resources."].
Proof. reflexivity. Qed.

(** The three tests of the handler, in order. *)
Lemma handleClaimResourceClick_chain (u : User.t) :
  handleClaimResourceClick (Some u) profile post =
    if not_student profile then [Toast ToastError "Only students can claim resources."]
    else if not_verified profile then
      [Toast ToastError
         "You must be a verified student to claim resources. Please verify your profile.";
       RouterPush "/?page=verification"]
    else [SetDonorDetails (Some post)].
Proof. reflexivity. Qed.

(** Whoever the profile says the author is, the button is disabled on the
    author's own post, and a click on it does nothing. *)
Lemma clickClaimButton_author (u : User.t) :
  Post.user_id post = User.id u →
  isClaimButtonDisabled (Some u) profile post = true ∧
  clickClaimButton (Some u) profile post = [].
Proof.
  intros Hown. unfold clickClaimButton.
  assert (isClaimButtonDisabled (Some u) profile post = true) as ->; [|done].
  unfold isClaimButtonDisabled.
  repeat case_match; try reflexivity. contradiction.
Qed.

(** The tooltip names the first of the four conditions that fails. *)
Lemma claimButtonTooltip_chain (user : option User.t) :
  claimButtonTooltip user profile post =
    match user with
    | None => "Sign in to claim resources"
    | Some u =>
        if not_student profile then "Only students can claim resources"
        else if not_verified profile
             then "Verify your student profile to claim resources"
        else if decide (Post.user_id post = User.id u)
             then "You cannot claim your own resource"
        else "Claim this resource"
    end.
Proof. reflexivity. Qed.

(** The button is disabled exactly when the tooltip gives a reason. *)
Lemma isClaimButtonDisabled_tooltip (user : option User.t) :
  isClaimButtonDisabled user profile post = false ↔
  claimButtonTooltip user profile post = "Claim this resource".
Proof.
  unfold isClaimButtonDisabled, claimButtonTooltip.
  repeat case_match; split; intros; congruence.
Qed.

End Claim.

(** The handler has no test of authorship: a verified student is shown the
    donor details of any post, the student's own included. *)
Lemma handleClaimResourceClick_verified_student
    (u : User.t) (prof : Profile.t) (post : Post.t) :
  Profile.role prof = "student" →
  Profile.verification_status prof = "verified" →
  handleClaimResourceClick (Some u) (Some prof) post = [SetDonorDetails (Some post)].
Proof.
  intros Hrole Hstatus. unfold handleClaimResourceClick, not_student, not_verified.
  rewrite Hrole, Hstatus. reflexivity.
Qed.

(** The handler taken by itself has no test of authorship: that test is
    made by the button in front of it. Were the handler called for a
    verified student on that student's own donation, it would reveal the
    donor details; the button predicate and the tooltip refuse, so that no
    click gets that far. *)
Example handler_relies_on_button_for_authorship :
  Post.user_id Sample.donation = User.id Sample.ann ∧
  handleClaimResourceClick (Some Sample.ann) (Some Sample.student) Sample.donation
    = [SetDonorDetails (Some Sample.donation)] ∧
  isClaimButtonDisabled (Some Sample.ann) (Some Sample.student) Sample.donation = true ∧
  clickClaimButton (Some Sample.ann) (Some Sample.student) Sample.donation = [] ∧
  claimButtonTooltip (Some Sample.ann) (Some Sample.student) Sample.donation
    = "You cannot claim your own resource".
Proof. split_and!; reflexivity. Qed.


(* ===================================================================== *)
(** * Like toggle *)
(* ===================================================================== *)

Section LikeToggle.
Variables (u : User.t) (prof : Profile.t).

Lemma handleLikeToggle_unauthenticated profile clock post r r' :
  handleLikeToggle None profile clock post r r'
    = [Toast ToastInfo "Please sign in to like posts."].
Proof. reflexivity. Qed.

(** Whatever the remote calls do, the only state update of the handler is
    its optimistic apply. *)
Lemma handleLikeToggle_posts clock post r r' st :
  FeedState.posts (apply_effects (handleLikeToggle (Some u) (Some prof) clock post r r') st)
    = applyLikeToggle u clock post (FeedState.posts st).
Proof.
  unfold handleLikeToggle.
  destruct (hasLiked u post), r, r', (decide (Post.user_id post ≠ User.id u));
    reflexivity.
Qed.

Lemma applyLikeToggle_lookup clock post (posts : list Post.t) i p :
  posts !! i = Some p →
  applyLikeToggle u clock post posts !! i =
    Some (if decide (Post.id p = Post.id post)
          then Post.with_likes (optimisticLikes u clock post) p else p).
Proof.
  intros Hi. unfold applyLikeToggle, updatePostInState.
  rewrite list_lookup_fmap, Hi. cbn.
  destruct (decide (Post.id p = Post.id post)); reflexivity.
Qed.

Lemma hasLiked_likers post :
  hasLiked u post = true ↔ User.id u ∈ likers post.
Proof.
  unfold hasLiked, likers, Post.likes_or_empty.
  destruct (Post.likes post) as [likes|]; cbn.
  - rewrite existsb_exists, elem_of_list_to_set, list_elem_of_fmap.
    split.
    + intros (l & Hin & Hl). apply bool_decide_eq_true in Hl.
      exists l. split; [done|]. by apply list_elem_of_In.
    + intros (l & Hl & Hin). exists l. split; [by apply list_elem_of_In|].
      by apply bool_decide_eq_true.
  - split; [done|]. intros Hin. by apply not_elem_of_empty in Hin.
Qed.

(** The optimistic apply removes the user from the likers of a post the
    user likes, and adds the user otherwise. *)
Lemma likers_toggle clock post :
  likers (Post.with_likes (optimisticLikes u clock post) post) =
    if hasLiked u post then likers post ∖ {[User.id u]}
    else likers post ∪ {[User.id u]}.
Proof.
  unfold optimisticLikes.
  destruct (hasLiked u post) eqn:Hliked.
  - unfold likers, Post.likes_or_empty. cbn.
    destruct (Post.likes post) as [likes|]; cbn.
    + apply set_eq. intros x.
      rewrite elem_of_difference, !elem_of_list_to_set, !list_elem_of_fmap,
        elem_of_singleton.
      split.
      * intros (l & -> & Hl). apply list_elem_of_filter in Hl as [Hne Hl].
        split; [by exists l | done].
      * intros [(l & -> & Hl) Hne]. exists l. split; [done|].
        by apply list_elem_of_filter.
    + set_solver.
  - unfold likers at 1. unfold Post.likes_or_empty at 1. cbn.
    rewrite fmap_app, list_to_set_app_L. cbn. unfold likers. set_solver.
Qed.

Lemma with_likes_with_likes l1 l2 post :
  Post.with_likes l1 (Post.with_likes l2 post) = Post.with_likes l1 post.
Proof. reflexivity. Qed.

Lemma with_likes_id l post : Post.id (Post.with_likes l post) = Post.id post.
Proof. reflexivity. Qed.

(** Two optimistic applies in a row, on the post as the first one left it. *)
Lemma likers_double_toggle clock1 clock2 post :
  let post1 := Post.with_likes (optimisticLikes u clock1 post) post in
  likers (Post.with_likes (optimisticLikes u clock2 post1) post1) = likers post.
Proof.
  intros post1. rewrite likers_toggle. subst post1. rewrite likers_toggle.
  pose proof (hasLiked_likers post) as Hpost.
  pose proof (hasLiked_likers (Post.with_likes (optimisticLikes u clock1 post) post))
    as Hpost1.
  rewrite likers_toggle in Hpost1.
  destruct (hasLiked u post).
  - assert (User.id u ∈ likers post) as Hin by by apply Hpost.
    destruct (hasLiked u (Post.with_likes _ post)).
    + assert (User.id u ∈ likers post ∖ {[User.id u]}) by by apply Hpost1.
      set_solver.
    + apply set_eq. intros x. destruct (decide (x = User.id u)); set_solver.
  - assert (User.id u ∉ likers post) as Hnotin.
    { intros Hin. apply Hpost in Hin. done. }
    destruct (hasLiked u (Post.with_likes _ post)).
    + set_solver.
    + assert (User.id u ∈ likers post ∪ {[User.id u]}) as Hin by set_solver.
      apply Hpost1 in Hin. done.
Qed.

(** A second toggle that still holds the post as it was before the first
    one repeats the first update instead of undoing it. *)
Lemma applyLikeToggle_stale clock post (posts : list Post.t) :
  applyLikeToggle u clock post (applyLikeToggle u clock post posts)
    = applyLikeToggle u clock post posts.
Proof.
  unfold applyLikeToggle, updatePostInState.
  rewrite <- list_fmap_compose. apply list_fmap_ext. intros i p _. cbn.
  destruct (decide (Post.id p = Post.id post)) as [Hid|Hid]; cbn.
  - by rewrite decide_True.
  - by rewrite decide_False.
Qed.

End LikeToggle.

(** C4: for an authenticated user, two like toggles in a row on a post of
    the feed, the second on the post as the first left it, give the post
    back the set of users that liked it, and change none of its other
    fields, whatever the remote calls of either toggle do. *)
Theorem C4_double_toggle_restores_likers
    (u : User.t) (prof : Profile.t) (clock1 clock2 : Clock.t)
    (r1 r1' r2 r2' : outcome) (st : FeedState.t) (i : nat) (post : Post.t) :
  FeedState.posts st !! i = Some post →
  let st1 :=
    apply_effects (handleLikeToggle (Some u) (Some prof) clock1 post r1 r1') st in
  ∃ post1,
    FeedState.posts st1 !! i = Some post1 ∧
    let st2 :=
      apply_effects (handleLikeToggle (Some u) (Some prof) clock2 post1 r2 r2') st1 in
    ∃ post2,
      FeedState.posts st2 !! i = Some post2 ∧
      likers post2 = likers post ∧
      Post.with_likes None post2 = Post.with_likes None post.
Proof.
  intros Hi st1.
  assert (FeedState.posts st1 !! i
            = Some (Post.with_likes (optimisticLikes u clock1 post) post)) as Hi1.
  { subst st1. rewrite handleLikeToggle_posts.
    rewrite (applyLikeToggle_lookup _ _ _ _ _ _ Hi). by rewrite decide_True. }
  eexists. split; [exact Hi1|]. intros st2.
  eexists. split.
  - subst st2. rewrite handleLikeToggle_posts.
    rewrite (applyLikeToggle_lookup _ _ _ _ _ _ Hi1). by rewrite decide_True.
  - split; [apply likers_double_toggle | reflexivity].
Qed.

Lemma C4_double_toggle_witness :
  let post := Sample.post "p1" "bob" Sample.T1 "wisdom" (Some "hello")
                (Some [Sample.like 7 "p1" "ann"; Sample.like 8 "p1" "bob"]) None in
  let st := Sample.state [post] in
  FeedState.posts st !! 0%nat = Some post ∧
  ∃ post1,
    FeedState.posts
      (apply_effects
         (handleLikeToggle (Some Sample.ann) (Some Sample.student) Sample.clock post
            (Resolved None) (Resolved None)) st) !! 0%nat = Some post1 ∧
    ∃ post2,
      FeedState.posts
        (apply_effects
           (handleLikeToggle (Some Sample.ann) (Some Sample.student) Sample.clock' post1
              (Rejected (JsError.mk None)) (Resolved None))
           (apply_effects
              (handleLikeToggle (Some Sample.ann) (Some Sample.student) Sample.clock post
                 (Resolved None) (Resolved None)) st)) !! 0%nat = Some post2 ∧
      likers post2 = likers post ∧
      Post.with_likes None post2 = Post.with_likes None post.
Proof.
  intros post st. split; [reflexivity|].
  exact (C4_double_toggle_restores_likers Sample.ann Sample.student Sample.clock
           Sample.clock' (Resolved None) (Resolved None) (Rejected (JsError.mk None))
           (Resolved None) st 0%nat post eq_refl).
Defined.

(** The list of likes itself need not come back: the user's stored like is
    replaced by a synthesized one at the end. *)
Example double_toggle_changes_like_list :
  let post := Sample.post "p1" "bob" Sample.T1 "wisdom" (Some "hello")
                (Some [Sample.like 7 "p1" "ann"; Sample.like 8 "p1" "bob"]) None in
  let post1 := Post.with_likes (optimisticLikes Sample.ann Sample.clock post) post in
  let post2 := Post.with_likes (optimisticLikes Sample.ann Sample.clock' post1) post1 in
  Post.likes post1 = Some [Sample.like 8 "p1" "bob"] ∧
  Post.likes post2 =
    Some [Sample.like 8 "p1" "bob";
          Like.mk 1704070001000 "p1" "ann" "2024-01-01T00:46:41.000Z"].
Proof. split; reflexivity. Qed.

(** The handler never reads what its remote calls resolve to: an unlike
    whose delete comes back with an error ends like one that succeeded. *)
Lemma handleLikeToggle_unlike_result_unread
    (u : User.t) (prof : Profile.t) (clock : Clock.t) (post : Post.t)
    (error : option JsError.t) (r_notification : outcome) :
  hasLiked u post = true →
  handleLikeToggle (Some u) (Some prof) clock post (Resolved error) r_notification
    = [SetPosts (applyLikeToggle u clock post);
       Remote (LikesDelete (Post.id post) (User.id u))].
Proof. intros Hliked. unfold handleLikeToggle. rewrite Hliked. reflexivity. Qed.

(** A like or unlike whose call throws is reported, and the feed is
    fetched again. *)
Lemma handleLikeToggle_rejected
    (u : User.t) (prof : Profile.t) (clock : Clock.t) (post : Post.t)
    (reason : JsError.t) (r_notification : outcome) :
  handleLikeToggle (Some u) (Some prof) clock post (Rejected reason) r_notification
    = [SetPosts (applyLikeToggle u clock post);
       Remote (if hasLiked u post
               then LikesDelete (Post.id post) (User.id u)
               else LikesInsert (Post.id post) (User.id u));
       Toast ToastError (Js.or_else (JsError.message reason) "Could not update like.");
       FetchPosts].
Proof. unfold handleLikeToggle. destruct (hasLiked u post); reflexivity. Qed.

(** C3 (amended): after a like insert that resolves, on a post of another
    user, the like notification is requested. Whatever that call resolves
    to, error or not, nothing follows it: no message, no refetch. If the
    call throws, the handler's catch reports the error and refetches. *)
Theorem C3_like_notification_outcome
    (u : User.t) (prof : Profile.t) (clock : Clock.t) (post : Post.t)
    (error : option JsError.t) (r_notification : outcome) :
  hasLiked u post = false →
  Post.user_id post ≠ User.id u →
  handleLikeToggle (Some u) (Some prof) clock post (Resolved error) r_notification =
    SetPosts (applyLikeToggle u clock post)
    :: Remote (LikesInsert (Post.id post) (User.id u))
    :: Remote (CreateNotification (Post.user_id post) "like" (User.id u) (Post.id post))
    :: match r_notification with
       | Resolved _ => []
       | Rejected reason =>
           [Toast ToastError
              (Js.or_else (JsError.message reason) "Could not update like.");
            FetchPosts]
       end.
Proof.
  intros Hnot Hother. unfold handleLikeToggle. rewrite Hnot.
  rewrite (decide_True _ _ Hother).
  destruct r_notification; reflexivity.
Qed.

Lemma C3_like_notification_witness :
  let post := Sample.post "p1" "bob" Sample.T1 "wisdom" (Some "hello") (Some []) None in
  hasLiked Sample.ann post = false ∧
  Post.user_id post ≠ User.id Sample.ann ∧
  handleLikeToggle (Some Sample.ann) (Some Sample.student) Sample.clock post
      (Resolved None) (Resolved (Some (JsError.mk (Some "permission denied")))) =
    [SetPosts (applyLikeToggle Sample.ann Sample.clock post);
     Remote (LikesInsert "p1" "ann");
     Remote (CreateNotification "bob" "like" "ann" "p1")].
Proof.
  intros post. split; [reflexivity|]. split; [by intros [=]|].
  refine (C3_like_notification_outcome Sample.ann Sample.student Sample.clock post None
            (Resolved (Some (JsError.mk (Some "permission denied")))) eq_refl _).
  by intros [=].
Defined.

(** C3 (as stated) fails: a notification call that throws after a
    successful like insert is reported to the user and triggers a
    refetch. *)
Lemma C3_notification_failure_surfaced :
  let post := Sample.post "p1" "bob" Sample.T1 "wisdom" (Some "hello") (Some []) None in
  let es :=
    handleLikeToggle (Some Sample.ann) (Some Sample.student) Sample.clock post
      (Resolved None) (Rejected (JsError.mk (Some "rpc failed"))) in
  es = [SetPosts (applyLikeToggle Sample.ann Sample.clock post);
        Remote (LikesInsert "p1" "ann");
        Remote (CreateNotification "bob" "like" "ann" "p1");
        Toast ToastError "rpc failed";
        FetchPosts] ∧
  ¬ no_toast es ∧ ¬ no_refetch es.
Proof.
  split_and!.
  - reflexivity.
  - intros Hno. apply (Hno ToastError "rpc failed"). cbn. set_solver.
  - intros Hno. apply Hno. cbn. set_solver.
Qed.

(* ===================================================================== *)
(** * Add comment *)
(* ===================================================================== *)

Section AddComment.
Variables (postId : string).

Lemma appendComment_length c (prev : list Post.t) :
  length (appendComment postId c prev) = length prev.
Proof. apply length_fmap. Qed.

Lemma appendComment_lookup c (prev : list Post.t) i p :
  prev !! i = Some p →
  appendComment postId c prev !! i =
    Some (if decide (Post.id p = postId)
          then Post.with_comments (Some (Post.comments_or_empty p ++ [c])) p
          else p).
Proof. intros Hi. unfold appendComment. by rewrite list_lookup_fmap, Hi. Qed.

Lemma removeComment_length commentId (prev : list Post.t) :
  length (removeComment postId commentId prev) = length prev.
Proof. apply length_fmap. Qed.

Lemma removeComment_lookup commentId (prev : list Post.t) i p :
  prev !! i = Some p →
  removeComment postId commentId prev !! i =
    Some (if decide (Post.id p = postId)
          then Post.with_comments
                 (filter (λ c, Comment.id c ≠ commentId) <$> Post.comments p) p
          else p).
Proof. intros Hi. unfold removeComment. by rewrite list_lookup_fmap, Hi. Qed.

Lemma filter_all {A} (P : A → Prop) `{!∀ x, Decision (P x)} (l : list A) :
  Forall P l → filter P l = l.
Proof.
  induction 1 as [|x l Hx _ IH]; [done|].
  by rewrite filter_cons_True, IH.
Qed.

(** Apply then rollback, with nothing in between, on comments none of which
    carries the temporary identifier. *)
Lemma removeComment_appendComment_post c (p : Post.t) :
  Forall (λ c', Comment.id c' ≠ Comment.id c) (Post.comments_or_empty p) →
  filter (λ c', Comment.id c' ≠ Comment.id c) (Post.comments_or_empty p ++ [c])
    = Post.comments_or_empty p.
Proof.
  intros Hfresh. rewrite filter_app, (filter_all _ _ Hfresh).
  rewrite filter_cons_False, filter_nil by (intros Hne; by apply Hne).
  apply app_nil_r.
Qed.

End AddComment.

(** C10: an add-comment call that passes its tests starts with one state
    update, the optimistic apply. On any collection that update keeps the
    length and every post whose identifier is not the target's; in a post
    with the target's identifier it puts the synthesized comment after the
    comments the post had and changes no other field. *)
Theorem C10_add_comment_frame
    (u : User.t) (prof : Profile.t) (clock : Clock.t) (posts : list Post.t)
    (newComments : gmap string string) (postId text : string)
    (r_comments r_notification : outcome) :
  newComments !! postId = Some text →
  Js.truthy (Js.trim text) = true →
  let c := optimisticComment u prof clock postId (Js.trim text) in
  (∃ rest,
     handleAddComment (Some u) (Some prof) clock posts newComments postId
       r_comments r_notification
       = SetPosts (appendComment postId c)
         :: SetNewComments (λ prev, <[postId := ""]> prev)
         :: Remote (CommentsInsert postId (User.id u) (Js.trim text))
         :: rest) ∧
  ∀ prev : list Post.t,
    length (appendComment postId c prev) = length prev ∧
    ∀ i p, prev !! i = Some p →
      ∃ p', appendComment postId c prev !! i = Some p' ∧
        Post.with_comments None p' = Post.with_comments None p ∧
        if decide (Post.id p = postId)
        then Post.comments p' = Some (Post.comments_or_empty p ++ [c])
        else p' = p.
Proof.
  intros Htext Htruthy c. split.
  - unfold handleAddComment. rewrite Htext. cbn [fmap option_fmap option_map].
    rewrite Htruthy. fold c.
    destruct r_comments as [[error|]|reason].
    + eexists. reflexivity.
    + destruct (list_find (λ p, Post.id p = postId) posts) as [[k post]|] eqn:Hfind.
      * destruct (decide (Post.user_id post ≠ User.id u)) as [Hne|He].
        -- destruct r_notification; eexists; reflexivity.
        -- eexists; reflexivity.
      * eexists; reflexivity.
    + eexists. reflexivity.
  - intros prev. split; [apply appendComment_length|].
    intros i p Hi. eexists. split; [by apply appendComment_lookup|].
    destruct (decide (Post.id p = postId)); split; reflexivity.
Qed.

Lemma C10_add_comment_frame_witness :
  let target := Sample.post "p1" "bob" Sample.T1 "wisdom" (Some "hello") None
                  (Some [Sample.comment "c1" "p1" "bob" "first"]) in
  let other := Sample.post "p2" "ann" Sample.T2 "wisdom" (Some "other") None None in
  let newComments : gmap string string := {[ "p1" := "  nice one " ]} in
  let c := optimisticComment Sample.ann Sample.student Sample.clock "p1" "nice one" in
  newComments !! "p1" = Some "  nice one " ∧
  Js.truthy (Js.trim "  nice one ") = true ∧
  (∃ p', appendComment "p1" c [other; target] !! 0%nat = Some p' ∧
     Post.with_comments None p' = Post.with_comments None other ∧
     p' = other) ∧
  (∃ p', appendComment "p1" c [other; target] !! 1%nat = Some p' ∧
     Post.with_comments None p' = Post.with_comments None target ∧
     Post.comments p' = Some [Sample.comment "c1" "p1" "bob" "first"; c]).
Proof.
  intros target other newComments c.
  split; [reflexivity|]. split; [reflexivity|].
  pose proof (C10_add_comment_frame Sample.ann Sample.student Sample.clock
                [other; target] newComments "p1" "  nice one "
                (Resolved None) (Resolved None) eq_refl eq_refl) as [_ Hframe].
  destruct (Hframe [other; target]) as [_ Hposts].
  split.
  - exact (Hposts 0%nat other eq_refl).
  - exact (Hposts 1%nat target eq_refl).
Defined.

(** A comment insert whose promise rejects goes straight to the [catch]:
    the user is told, and the state is left as the optimistic apply made
    it. *)
Lemma handleAddComment_rejected
    (u : User.t) (prof : Profile.t) (clock : Clock.t) (posts : list Post.t)
    (newComments : gmap string string) (postId text : string)
    (reason : JsError.t) (r_notification : outcome) :
  newComments !! postId = Some text →
  Js.truthy (Js.trim text) = true →
  handleAddComment (Some u) (Some prof) clock posts newComments postId
      (Rejected reason) r_notification
    = [SetPosts (appendComment postId
                   (optimisticComment u prof clock postId (Js.trim text)));
       SetNewComments (λ prev, <[postId := ""]> prev);
       Remote (CommentsInsert postId (User.id u) (Js.trim text));
       Toast ToastError (Js.or_else (JsError.message reason) "Failed to add comment.")].
Proof.
  intros Htext Htruthy. unfold handleAddComment. rewrite Htext.
  cbn [fmap option_fmap option_map]. rewrite Htruthy. reflexivity.
Qed.

(** Without a user, a profile or a text that survives [trim], nothing is
    applied. *)
Lemma handleAddComment_blank
    (user : option User.t) (profile : option Profile.t) (clock : Clock.t)
    (posts : list Post.t) (newComments : gmap string string) (postId : string)
    (r_comments r_notification : outcome) :
  Js.truthy_opt (Js.trim <$> newComments !! postId) = false →
  handleAddComment user profile clock posts newComments postId r_comments r_notification
    = [Toast ToastInfo "Please sign in and write a comment."].
Proof.
  intros Hblank. unfold handleAddComment.
  destruct (newComments !! postId) as [text|]; cbn in *.
  - rewrite Hblank. by destruct user, profile.
  - by destruct user.
Qed.

(** C5, amended to the failure the handler tests for: when the comment
    insert comes back with an error in its result, the handler rolls
    back with one state update and a message, and asks for no refetch. On
    whatever the collection is by then, the rollback keeps every post with
    another identifier, and in a post with the target's identifier drops
    the comments carrying the temporary identifier and keeps all others, in
    order, changing no other field. Straight after the optimistic apply,
    on comments none of which carries the temporary identifier, every post
    has the comments it had before. *)
Theorem C5_failed_insert_rollback
    (u : User.t) (prof : Profile.t) (clock : Clock.t) (posts : list Post.t)
    (newComments : gmap string string) (postId text : string)
    (error : JsError.t) (r_notification : outcome) :
  newComments !! postId = Some text →
  Js.truthy (Js.trim text) = true →
  let c := optimisticComment u prof clock postId (Js.trim text) in
  let es :=
    handleAddComment (Some u) (Some prof) clock posts newComments postId
      (Resolved (Some error)) r_notification in
  es = [SetPosts (appendComment postId c);
        SetNewComments (λ prev, <[postId := ""]> prev);
        Remote (CommentsInsert postId (User.id u) (Js.trim text));
        SetPosts (removeComment postId (Comment.id c));
        Toast ToastError (Js.or_else (JsError.message error) "Failed to add comment.")] ∧
  no_refetch es ∧
  (∀ cur : list Post.t,
     length (removeComment postId (Comment.id c) cur) = length cur ∧
     ∀ i p, cur !! i = Some p →
       ∃ p', removeComment postId (Comment.id c) cur !! i = Some p' ∧
         Post.with_comments None p' = Post.with_comments None p ∧
         if decide (Post.id p = postId)
         then Post.comments p'
                = filter (λ c', Comment.id c' ≠ Comment.id c) <$> Post.comments p
         else p' = p) ∧
  (∀ prev : list Post.t,
     Forall (λ p, Forall (λ c', Comment.id c' ≠ Comment.id c) (Post.comments_or_empty p))
       prev →
     let cur := removeComment postId (Comment.id c) (appendComment postId c prev) in
     length cur = length prev ∧
     ∀ i p, prev !! i = Some p →
       ∃ p', cur !! i = Some p' ∧
         Post.with_comments None p' = Post.with_comments None p ∧
         Post.comments_or_empty p' = Post.comments_or_empty p).
Proof.
  intros Htext Htruthy c es.
  assert (es = [SetPosts (appendComment postId c);
                SetNewComments (λ prev, <[postId := ""]> prev);
                Remote (CommentsInsert postId (User.id u) (Js.trim text));
                SetPosts (removeComment postId (Comment.id c));
                Toast ToastError
                  (Js.or_else (JsError.message error) "Failed to add comment.")]) as Hes.
  { subst es. unfold handleAddComment. rewrite Htext.
    cbn [fmap option_fmap option_map]. rewrite Htruthy. reflexivity. }
  split; [exact Hes|]. split.
  { unfold no_refetch. rewrite Hes. intros Hin.
    repeat (apply elem_of_cons in Hin as [Hin|Hin]; [discriminate Hin|]).
    by apply elem_of_nil in Hin. }
  split.
  - intros cur. split; [apply removeComment_length|].
    intros i p Hi. eexists. split; [by apply removeComment_lookup|].
    destruct (decide (Post.id p = postId)); split; reflexivity.
  - intros prev Hfresh cur. subst cur. split.
    { by rewrite removeComment_length, appendComment_length. }
    intros i p Hi.
    pose proof (appendComment_lookup postId c prev i p Hi) as Hi1.
    eexists. split; [by apply removeComment_lookup|].
    pose proof (Forall_lookup_1 _ _ _ _ Hfresh Hi) as Hp.
    destruct (decide (Post.id p = postId)) as [Hid|Hid].
    + rewrite decide_True by done. split; [reflexivity|].
      exact (removeComment_appendComment_post c p Hp).
    + rewrite decide_False by done. split; reflexivity.
Qed.

Lemma C5_failed_insert_rollback_witness :
  let target := Sample.post "p1" "bob" Sample.T1 "wisdom" (Some "hello") None
                  (Some [Sample.comment "c1" "p1" "bob" "first";
                         Sample.comment "c2" "p1" "ann" "second"]) in
  let other := Sample.post "p2" "ann" Sample.T2 "wisdom" (Some "other") None None in
  let newComments : gmap string string := {[ "p1" := "  nice one " ]} in
  let c := optimisticComment Sample.ann Sample.student Sample.clock "p1" "nice one" in
  newComments !! "p1" = Some "  nice one " ∧
  Js.truthy (Js.trim "  nice one ") = true ∧
  FeedState.posts
    (apply_effects
       (handleAddComment (Some Sample.ann) (Some Sample.student) Sample.clock
          [other; target] newComments "p1"
          (Resolved (Some (JsError.mk (Some "insert refused")))) (Resolved None))
       (Sample.state [other; target]))
    = [other; target].
Proof.
  intros target other newComments c.
  split; [reflexivity|]. split; [reflexivity|].
  pose proof (C5_failed_insert_rollback Sample.ann Sample.student Sample.clock
                [other; target] newComments "p1" "  nice one "
                (JsError.mk (Some "insert refused")) (Resolved None)
                eq_refl eq_refl) as [Hes _].
  cbv zeta in Hes. rewrite Hes. vm_compute. reflexivity.
Defined.

(** C5 as first stated, for every failure of the insert, does not hold: an
    insert that fails by throwing (its promise rejects) is only reported.
    The handler's [catch] shows the message; the one update of the posts is
    the optimistic apply, so the synthesized comment stays in the target
    post, after the two comments it had; and nothing is fetched again. *)
Lemma C5_rejected_insert_keeps_comment :
  let first := Sample.comment "c1" "p1" "bob" "first" in
  let second := Sample.comment "c2" "p1" "ann" "second" in
  let target := Sample.post "p1" "bob" Sample.T1 "wisdom" (Some "hello") None
                  (Some [first; second]) in
  let other := Sample.post "p2" "ann" Sample.T2 "wisdom" (Some "other") None None in
  let newComments : gmap string string := {[ "p1" := "  nice one " ]} in
  let c := optimisticComment Sample.ann Sample.student Sample.clock "p1" "nice one" in
  let es :=
    handleAddComment (Some Sample.ann) (Some Sample.student) Sample.clock
      [other; target] newComments "p1"
      (Rejected (JsError.mk (Some "network unreachable"))) (Resolved None) in
  es = [SetPosts (appendComment "p1" c);
        SetNewComments (λ prev, <[ "p1" := "" ]> prev);
        Remote (CommentsInsert "p1" "ann" "nice one");
        Toast ToastError "network unreachable"] ∧
  length (posts_writes es) = 1%nat ∧
  no_refetch es ∧
  FeedState.posts (apply_effects es (Sample.state [other; target]))
    = [other; Post.with_comments (Some [first; second; c]) target] ∧
  FeedState.posts (apply_effects es (Sample.state [other; target]))
    ≠ [other; target].
Proof.
  intros first second target other newComments c es.
  assert (es = [SetPosts (appendComment "p1" c);
                SetNewComments (λ prev, <[ "p1" := "" ]> prev);
                Remote (CommentsInsert "p1" "ann" "nice one");
                Toast ToastError "network unreachable"]) as Hes.
  { exact (handleAddComment_rejected Sample.ann Sample.student Sample.clock
             [other; target] newComments "p1" "  nice one "
             (JsError.mk (Some "network unreachable")) (Resolved None)
             eq_refl eq_refl). }
  split; [exact Hes|]. rewrite Hes.
  split; [reflexivity|]. split.
  { unfold no_refetch. intros Hin.
    repeat (apply elem_of_cons in Hin as [Hin|Hin]; [discriminate Hin|]).
    by apply elem_of_nil in Hin. }
  assert (FeedState.posts
            (apply_effects
               [SetPosts (appendComment "p1" c);
                SetNewComments (λ prev, <[ "p1" := "" ]> prev);
                Remote (CommentsInsert "p1" "ann" "nice one");
                Toast ToastError "network unreachable"]
               (Sample.state [other; target]))
          = [other; Post.with_comments (Some [first; second; c]) target]) as ->.
  { vm_compute. reflexivity. }
  split; [reflexivity|]. intros Heq.
  apply (f_equal (λ l : list Post.t, length (l ≫= Post.comments_or_empty))) in Heq.
  vm_compute in Heq. discriminate Heq.
Qed.

(* ===================================================================== *)
(** * Search *)
(* ===================================================================== *)

Lemma append_nil_l (s : string) : "" +:+ s = s.
Proof. reflexivity. Qed.

Lemma append_cons (c : ascii) (s1 s2 : string) :
  String c s1 +:+ s2 = String c (s1 +:+ s2).
Proof. reflexivity. Qed.

Lemma startsWith_spec (s sub : string) :
  Js.startsWith s sub = true ↔ ∃ suf, s = sub +:+ suf.
Proof.
  revert s. induction sub as [|c sub IH]; intros s.
  - destruct s; (split; [intros _; eexists; apply eq_sym, append_nil_l | done]).
  - destruct s as [|d s]; cbn [Js.startsWith].
    + split; [done|]. intros [suf Hsuf]. rewrite append_cons in Hsuf. done.
    + destruct (decide (c = d)) as [->|Hne].
      * rewrite IH. split.
        -- intros [suf ->]. exists suf. by rewrite append_cons.
        -- intros [suf Hsuf]. rewrite append_cons in Hsuf.
           injection Hsuf as ->. by exists suf.
      * split; [done|]. intros [suf Hsuf]. rewrite append_cons in Hsuf.
        injection Hsuf as -> _. done.
Qed.

(** [includes] decides occurrence as a contiguous run. *)
Lemma includes_spec (s sub : string) :
  Js.includes s sub = true ↔ substring_of sub s.
Proof.
  unfold substring_of. induction s as [|c s IH].
  - cbn [Js.includes]. rewrite orb_false_r, startsWith_spec. split.
    + intros [suf ->]. by exists "", suf.
    + intros (pre & suf & Hs). destruct pre as [|d pre].
      * rewrite append_nil_l in Hs. by exists suf.
      * rewrite append_cons in Hs. done.
  - cbn [Js.includes]. rewrite orb_true_iff, startsWith_spec, IH. split.
    + intros [[suf ->]|(pre & suf & ->)].
      * by exists "", suf.
      * exists (String c pre), suf. by rewrite append_cons.
    + intros (pre & suf & Hs). destruct pre as [|d pre].
      * left. rewrite append_nil_l in Hs. by exists suf.
      * right. rewrite append_cons in Hs. injection Hs as -> ->.
        by exists pre, suf.
Qed.

(** Every string includes the empty string. *)
Lemma includes_empty (s : string) : Js.includes s "" = true.
Proof. destruct s; reflexivity. Qed.

Section Search.
Context `{Builtins}.

Lemma field_matches_spec (searchQuery : string) (field : option string) :
  field_matches searchQuery field = true ↔
  ∃ s, field = Some s ∧ ci_substring_of searchQuery s.
Proof.
  unfold field_matches, ci_substring_of. destruct field as [s|].
  - rewrite includes_spec. split.
    + intros Hs. by exists s.
    + by intros (s' & [= <-] & Hs).
  - split; [done|]. by intros (s' & [=] & _).
Qed.

Lemma elem_of_option_list {A} (x : A) (o : option A) :
  x ∈ option_list o ↔ o = Some x.
Proof.
  destruct o as [y|]; cbn.
  - rewrite list_elem_of_singleton. split; [by intros ->|by intros [= ->]].
  - split; [by intros ?%elem_of_nil|done].
Qed.

(** The search predicate holds of the posts one of whose searched texts
    contains the query, both in lower case. *)
Lemma matches_search_spec (searchQuery : string) (post : Post.t) :
  matches_search searchQuery post = true ↔
  ∃ s, s ∈ searched_fields post ∧ ci_substring_of searchQuery s.
Proof.
  unfold matches_search, searched_fields.
  rewrite !orb_true_iff, !field_matches_spec. split.
  - intros [[(s & Hs & Hsub)|(s & Hs & Hsub)]|(s & Hs & Hsub)];
      exists s; (split; [|done]); rewrite !elem_of_app, !elem_of_option_list; auto.
  - intros (s & Hs & Hsub).
    rewrite !elem_of_app, !elem_of_option_list in Hs.
    destruct Hs as [Hs|[Hs|Hs]]; [left; left|left; right|right]; by exists s.
Qed.

(** C8: with the empty query the projection is the type filter and the sort
    alone. With any other query the search step is the filter by the search
    predicate, and that predicate holds exactly of the posts whose content,
    resource title or author username contains the query, both taken in
    lower case. *)
Theorem C8_search_step (posts : list Post.t) (filter_ sortBy : string) :
  filteredAndSortedPosts posts "" filter_ sortBy
    = Array.sort (comparator sortBy) (type_step filter_ posts) ∧
  ∀ (c : ascii) (q : string),
    let searchQuery := String c q in
    filteredAndSortedPosts posts searchQuery filter_ sortBy
      = Array.sort (comparator sortBy)
          (type_step filter_
             (filter (λ post, matches_search searchQuery post = true) posts)) ∧
    (∀ post,
       post ∈ filter (λ post, matches_search searchQuery post = true) posts ↔
       post ∈ posts ∧
       ∃ s, s ∈ searched_fields post ∧ ci_substring_of searchQuery s) ∧
    filter (λ post, matches_search searchQuery post = true) posts `sublist_of` posts.
Proof.
  split; [reflexivity|]. intros c q searchQuery.
  split; [reflexivity|]. split.
  - intros post. rewrite list_elem_of_filter, matches_search_spec. tauto.
  - apply sublist_filter.
Qed.

End Search.

(** Case is ignored on both sides: an upper-case query finds a title in
    mixed case, and a query that occurs nowhere finds nothing. *)
Example search_ignores_case :
  let other := Sample.post "p2" "bob" Sample.T2 "wisdom" (Some "Old laptops") None None in
  @filteredAndSortedPosts Sample.builtins [other; Sample.donation] "ALGEBRA" "all" "created_at"
    = [Sample.donation] ∧
  @filteredAndSortedPosts Sample.builtins [other; Sample.donation] "chemistry" "all" "created_at"
    = [] ∧
  @filteredAndSortedPosts Sample.builtins [other; Sample.donation] "" "all" "created_at"
    = [other; Sample.donation].
Proof. split_and!; vm_compute; reflexivity. Qed.

(* ===================================================================== *)
(** * Sorting *)
(* ===================================================================== *)

Section SortFacts.
Context {A : Type} (compareFn : A → A → Js.number).

Lemma insert_Permutation (x : A) (l : list A) :
  Array.insert compareFn x l ≡ₚ x :: l.
Proof.
  induction l as [|y l IH]; cbn; [done|].
  destruct (Array.keeps_order (compareFn x y)); [done|].
  rewrite IH. apply Permutation_swap.
Qed.

Lemma sort_Permutation (l : list A) : Array.sort compareFn l ≡ₚ l.
Proof.
  induction l as [|x l IH]; cbn; [done|].
  fold (Array.sort compareFn l). by rewrite insert_Permutation, IH.
Qed.

Lemma sort_length (l : list A) : length (Array.sort compareFn l) = length l.
Proof. apply Permutation_length, sort_Permutation. Qed.

Lemma elem_of_sort (x : A) (l : list A) : x ∈ Array.sort compareFn l ↔ x ∈ l.
Proof. by rewrite sort_Permutation. Qed.

(** The comparator is a total preorder on the elements that satisfy [P]. *)
Variable P : A → Prop.
Notation "x ≼ y" := (may_precede compareFn x y) (at level 70).
Hypothesis total : ∀ x y, P x → P y → ¬ x ≼ y → y ≼ x.
Hypothesis trans : ∀ x y z, P x → P y → P z → x ≼ y → y ≼ z → x ≼ z.

Lemma insert_sorted (x : A) (l : list A) :
  P x → Forall P l →
  StronglySorted (may_precede compareFn) l →
  StronglySorted (may_precede compareFn) (Array.insert compareFn x l).
Proof.
  intros Hx Hl Hsorted. induction Hsorted as [|y l Hsorted IH Hy]; cbn.
  - repeat constructor.
  - apply Forall_cons in Hl as [HPy HPl].
    destruct (Array.keeps_order (compareFn x y)) eqn:Hxy.
    + constructor; [by constructor|].
      constructor; [done|].
      rewrite Forall_forall in Hy, HPl |- *. intros z Hz.
      apply (trans x y z); auto.
    + constructor; [by apply IH|].
      rewrite insert_Permutation. constructor; [|done].
      apply total; [done..|]. unfold may_precede. by rewrite Hxy.
Qed.

Lemma sort_sorted (l : list A) :
  Forall P l → StronglySorted (may_precede compareFn) (Array.sort compareFn l).
Proof.
  induction 1 as [|x l Hx Hl IH]; cbn; [constructor|].
  fold (Array.sort compareFn l). apply insert_sorted; [done| |done].
  by rewrite sort_Permutation.
Qed.

End SortFacts.

Lemma StronglySorted_lookup_lt {A} (R : relation A) (l : list A) (i j : nat) (a b : A) :
  StronglySorted R l →
  l !! i = Some a → l !! j = Some b → (i < j)%nat → R a b.
Proof.
  intros Hsorted. revert i j.
  induction Hsorted as [|x l Hsorted IH Hx]; intros i j Hi Hj Hlt; [done|].
  destruct j as [|j]; [lia|]. cbn in Hj.
  destruct i as [|i]; cbn in Hi.
  - injection Hi as <-. rewrite Forall_forall in Hx.
    apply Hx. by eapply list_elem_of_lookup_2.
  - apply (IH i j); [done..|lia].
Qed.

Section Order.
Context `{Builtins}.

Lemma compare_likes_shape :
  compare_likes = compare_count_then_time Post.likes_length.
Proof. reflexivity. Qed.

Lemma compare_comments_shape :
  compare_comments = compare_count_then_time Post.comments_length.
Proof. reflexivity. Qed.

Lemma may_precede_created_at (a b : Post.t) (ta tb : Z) :
  getTime a = Some ta → getTime b = Some tb →
  may_precede compare_created_at a b ↔ tb ≤ ta.
Proof.
  intros Ha Hb. unfold may_precede, compare_created_at. rewrite Ha, Hb. cbn.
  rewrite bool_decide_eq_true. lia.
Qed.

Lemma may_precede_count_then_time (count : Post.t → Z) (a b : Post.t) (ta tb : Z) :
  getTime a = Some ta → getTime b = Some tb →
  may_precede (compare_count_then_time count) a b ↔
  count b < count a ∨ (count b = count a ∧ tb ≤ ta).
Proof.
  intros Ha Hb. unfold may_precede, compare_count_then_time.
  destruct (decide (count b ≠ count a)) as [Hne|Heq]; cbn.
  - rewrite bool_decide_eq_true. lia.
  - rewrite Ha, Hb. cbn. rewrite bool_decide_eq_true. lia.
Qed.

Lemma created_at_total (x y : Post.t) :
  dated x → dated y →
  ¬ may_precede compare_created_at x y → may_precede compare_created_at y x.
Proof.
  intros [tx Hx] [ty Hy].
  rewrite (may_precede_created_at x y tx ty), (may_precede_created_at y x ty tx) by done.
  lia.
Qed.

Lemma created_at_trans (x y z : Post.t) :
  dated x → dated y → dated z →
  may_precede compare_created_at x y → may_precede compare_created_at y z →
  may_precede compare_created_at x z.
Proof.
  intros [tx Hx] [ty Hy] [tz Hz].
  rewrite (may_precede_created_at x y tx ty), (may_precede_created_at y z ty tz),
    (may_precede_created_at x z tx tz) by done.
  lia.
Qed.

Lemma count_then_time_total (count : Post.t → Z) (x y : Post.t) :
  dated x → dated y →
  ¬ may_precede (compare_count_then_time count) x y →
  may_precede (compare_count_then_time count) y x.
Proof.
  intros [tx Hx] [ty Hy].
  rewrite (may_precede_count_then_time count x y tx ty),
    (may_precede_count_then_time count y x ty tx) by done.
  lia.
Qed.

Lemma count_then_time_trans (count : Post.t → Z) (x y z : Post.t) :
  dated x → dated y → dated z →
  may_precede (compare_count_then_time count) x y →
  may_precede (compare_count_then_time count) y z →
  may_precede (compare_count_then_time count) x z.
Proof.
  intros [tx Hx] [ty Hy] [tz Hz].
  rewrite (may_precede_count_then_time count x y tx ty),
    (may_precede_count_then_time count y z ty tz),
    (may_precede_count_then_time count x z tx tz) by done.
  lia.
Qed.

Lemma search_step_sublist (searchQuery : string) (posts : list Post.t) :
  search_step searchQuery posts `sublist_of` posts.
Proof.
  unfold search_step. destruct (Js.truthy searchQuery); [apply sublist_filter|done].
Qed.

Lemma type_step_sublist (filter_ : string) (posts : list Post.t) :
  type_step filter_ posts `sublist_of` posts.
Proof.
  unfold type_step. destruct (decide (filter_ ≠ "all")); [apply sublist_filter|done].
Qed.

Lemma steps_dated (searchQuery filter_ : string) (posts : list Post.t) :
  Forall dated posts → Forall dated (type_step filter_ (search_step searchQuery posts)).
Proof.
  rewrite !Forall_forall. intros Hposts p Hp. apply Hposts.
  eapply elem_of_sublist; [|apply search_step_sublist].
  eapply elem_of_sublist; [exact Hp|apply type_step_sublist].
Qed.

(** The projection is a rearrangement of the posts that pass both filters. *)
Lemma filteredAndSortedPosts_Permutation (posts : list Post.t)
    (searchQuery filter_ sortBy : string) :
  filteredAndSortedPosts posts searchQuery filter_ sortBy
    ≡ₚ type_step filter_ (search_step searchQuery posts).
Proof. apply sort_Permutation. Qed.

(** Under the sort by likes the projection is ordered by its comparator. *)
Lemma sorted_by_likes (posts : list Post.t) (searchQuery filter_ : string) :
  Forall dated posts →
  StronglySorted (may_precede compare_likes)
    (filteredAndSortedPosts posts searchQuery filter_ "likes").
Proof.
  intros Hposts. unfold filteredAndSortedPosts, comparator.
  rewrite decide_True by done. rewrite compare_likes_shape.
  apply (sort_sorted _ dated).
  - apply count_then_time_total.
  - apply count_then_time_trans.
  - by apply steps_dated.
Qed.

Lemma sorted_by_comments (posts : list Post.t) (searchQuery filter_ : string) :
  Forall dated posts →
  StronglySorted (may_precede compare_comments)
    (filteredAndSortedPosts posts searchQuery filter_ "comments").
Proof.
  intros Hposts. unfold filteredAndSortedPosts, comparator.
  rewrite decide_False by done. rewrite decide_True by done.
  rewrite compare_comments_shape.
  apply (sort_sorted _ dated).
  - apply count_then_time_total.
  - apply count_then_time_trans.
  - by apply steps_dated.
Qed.

Lemma sorted_by_created_at (posts : list Post.t) (searchQuery filter_ sortBy : string) :
  sortBy ≠ "likes" → sortBy ≠ "comments" →
  Forall dated posts →
  StronglySorted (may_precede compare_created_at)
    (filteredAndSortedPosts posts searchQuery filter_ sortBy).
Proof.
  intros Hlikes Hcomments Hposts. unfold filteredAndSortedPosts, comparator.
  rewrite !decide_False by done.
  apply (sort_sorted _ dated).
  - apply created_at_total.
  - apply created_at_trans.
  - by apply steps_dated.
Qed.

End Order.

(** Where no two elements tie under the comparator, the sorted list is the
    only ordered rearrangement: the result does not depend on how the sort
    is carried out. *)
Lemma sort_unique {A} (compareFn : A → A → Js.number) (P : A → Prop)
    (l out : list A) :
  (∀ x y, P x → P y → ¬ may_precede compareFn x y → may_precede compareFn y x) →
  (∀ x y z, P x → P y → P z →
     may_precede compareFn x y → may_precede compareFn y z → may_precede compareFn x z) →
  (∀ x y, x ∈ l → y ∈ l →
     may_precede compareFn x y → may_precede compareFn y x → x = y) →
  Forall P l →
  out ≡ₚ l → StronglySorted (may_precede compareFn) out →
  out = Array.sort compareFn l.
Proof.
  intros Htotal Htrans Hanti Hl Hperm Hsorted.
  apply (StronglySorted_unique_strong (may_precede compareFn)).
  - intros x y Hx Hy. apply Hanti.
    + by rewrite <- Hperm.
    + by apply elem_of_sort in Hy.
  - done.
  - by apply (sort_sorted compareFn P).
  - by rewrite sort_Permutation.
Qed.

(** With no query and the filter 'all', [sort] runs on the state array
    itself: the state is left in the order of the projection. With a query
    or a type filter it runs on a copy. *)
Lemma posts_after_projection_in_place `{Builtins} (posts : list Post.t) (sortBy : string) :
  posts_after_projection posts "" "all" sortBy
    = filteredAndSortedPosts posts "" "all" sortBy.
Proof. reflexivity. Qed.

Lemma posts_after_projection_copy `{Builtins}
    (posts : list Post.t) (c : ascii) (q filter_ sortBy : string) :
  posts_after_projection posts (String c q) filter_ sortBy = posts.
Proof. reflexivity. Qed.

(** Contradict an order of three dated posts with the order the projection
    guarantees for two neighbours. *)
Ltac order_contradiction Hord :=
  match goal with
  | Ha : getTime ?a = Some ?ta, Hb : getTime ?b = Some ?tb |- _ =>
      let Hab := fresh in
      first [ pose proof (Hord 0%nat 1%nat a b ta tb eq_refl eq_refl Ha Hb) as Hab
            | pose proof (Hord 1%nat 2%nat a b ta tb eq_refl eq_refl Ha Hb) as Hab ];
      lia
  end.

(** C6: under the sort by likes, two posts of the projection with the same
    number of likes and different creation times stand newest first: the
    one at the smaller index is the one created later. *)
Theorem C6_likes_tie_break `{Builtins}
    (posts : list Post.t) (searchQuery filter_ : string)
    (i j : nat) (P Q : Post.t) (tP tQ : Z) :
  Forall dated posts →
  let out := filteredAndSortedPosts posts searchQuery filter_ "likes" in
  out !! i = Some P → out !! j = Some Q →
  Post.likes_length P = Post.likes_length Q →
  getTime P = Some tP → getTime Q = Some tQ → tP ≠ tQ →
  ((i < j)%nat ↔ tQ < tP).
Proof.
  intros Hposts out Hi Hj Hlikes HtP HtQ Hne.
  pose proof (sorted_by_likes posts searchQuery filter_ Hposts) as Hsorted.
  fold out in Hsorted. rewrite compare_likes_shape in Hsorted.
  split.
  - intros Hlt.
    pose proof (StronglySorted_lookup_lt _ _ _ _ _ _ Hsorted Hi Hj Hlt) as HPQ.
    apply (may_precede_count_then_time _ P Q tP tQ HtP HtQ) in HPQ. lia.
  - intros Hnewer.
    destruct (lt_eq_lt_dec i j) as [[Hlt|Heq]|Hgt]; [done| |].
    + subst j. rewrite Hi in Hj. injection Hj as <-.
      rewrite HtP in HtQ. injection HtQ as <-. lia.
    + pose proof (StronglySorted_lookup_lt _ _ _ _ _ _ Hsorted Hj Hi Hgt) as HQP.
      apply (may_precede_count_then_time _ Q P tQ tP HtQ HtP) in HQP. lia.
Qed.

Lemma C6_likes_tie_break_witness :
  let older := Sample.post "p1" "ann" Sample.T1 "wisdom" (Some "older")
                 (Some [Sample.like 1 "p1" "bob"]) None in
  let newer := Sample.post "p2" "bob" Sample.T2 "wisdom" (Some "newer")
                 (Some [Sample.like 2 "p2" "ann"]) None in
  let liked := Sample.post "p3" "bob" Sample.T1 "wisdom" (Some "liked")
                 (Some [Sample.like 3 "p3" "ann"; Sample.like 4 "p3" "bob"]) None in
  let posts := [older; newer; liked] in
  @Forall _ (@dated Sample.builtins) posts ∧
  @filteredAndSortedPosts Sample.builtins posts "" "all" "likes" = [liked; newer; older] ∧
  ((1 < 2)%nat ↔ 1704067200000 < 1704153600000).
Proof.
  intros older newer liked posts.
  assert (@Forall _ (@dated Sample.builtins) posts) as Hposts.
  { repeat constructor; eexists; reflexivity. }
  split; [exact Hposts|]. split; [vm_compute; reflexivity|].
  exact (@C6_likes_tie_break Sample.builtins posts "" "all" 1%nat 2%nat newer older
           1704153600000 1704067200000 Hposts eq_refl eq_refl eq_refl eq_refl eq_refl
           ltac:(lia)).
Defined.

(** C7: under every sort key other than likes and comments, the default
    among them, two posts of the projection with different creation times
    stand newest first: the one at the smaller index is the one created
    later. Three posts created at t1 < t2 < t3 come out as the third, the
    second, the first. *)
Theorem C7_most_recent_order `{Builtins}
    (posts : list Post.t) (searchQuery filter_ sortBy : string) :
  sortBy ≠ "likes" → sortBy ≠ "comments" →
  Forall dated posts →
  let out := filteredAndSortedPosts posts searchQuery filter_ sortBy in
  (∀ (i j : nat) (P Q : Post.t) (tP tQ : Z),
     out !! i = Some P → out !! j = Some Q →
     getTime P = Some tP → getTime Q = Some tQ → tP ≠ tQ →
     ((i < j)%nat ↔ tQ < tP)) ∧
  (∀ (p1 p2 p3 : Post.t) (t1 t2 t3 : Z),
     out ≡ₚ [p1; p2; p3] →
     getTime p1 = Some t1 → getTime p2 = Some t2 → getTime p3 = Some t3 →
     t1 < t2 → t2 < t3 →
     out = [p3; p2; p1]).
Proof.
  intros Hlikes Hcomments Hposts out.
  pose proof (sorted_by_created_at posts searchQuery filter_ sortBy
                Hlikes Hcomments Hposts) as Hsorted.
  fold out in Hsorted. clearbody out.
  assert (∀ (i j : nat) (P Q : Post.t) (tP tQ : Z),
            out !! i = Some P → out !! j = Some Q →
            getTime P = Some tP → getTime Q = Some tQ → tP ≠ tQ →
            ((i < j)%nat ↔ tQ < tP)) as Hord.
  { intros i j P Q tP tQ Hi Hj HtP HtQ Hne. split.
    - intros Hlt.
      pose proof (StronglySorted_lookup_lt _ _ _ _ _ _ Hsorted Hi Hj Hlt) as HPQ.
      apply (may_precede_created_at P Q tP tQ HtP HtQ) in HPQ. lia.
    - intros Hnewer.
      destruct (lt_eq_lt_dec i j) as [[Hlt|Heq]|Hgt]; [done| |].
      + subst j. rewrite Hi in Hj. injection Hj as <-.
        rewrite HtP in HtQ. injection HtQ as <-. lia.
      + pose proof (StronglySorted_lookup_lt _ _ _ _ _ _ Hsorted Hj Hi Hgt) as HQP.
        apply (may_precede_created_at Q P tQ tP HtQ HtP) in HQP. lia. }
  split; [exact Hord|].
  intros p1 p2 p3 t1 t2 t3 Hperm H1 H2 H3 H12 H23.
  symmetry in Hperm. apply permutations_Permutation in Hperm.
  cbn in Hperm.
  repeat (apply elem_of_cons in Hperm as [Hperm|Hperm];
          [subst out; first [reflexivity | order_contradiction Hord]|]).
  by apply elem_of_nil in Hperm.
Qed.

Lemma C7_most_recent_order_witness :
  let a1 := Sample.post "p1" "ann" Sample.T1 "wisdom" (Some "first") None None in
  let a2 := Sample.post "p2" "bob" Sample.T2 "wisdom" (Some "second") None None in
  let a3 := Sample.post "p3" "ann" Sample.T3 "wisdom" (Some "third") None None in
  let posts := [a1; a3; a2] in
  ("created_at" : string) ≠ "likes" ∧ ("created_at" : string) ≠ "comments" ∧
  @Forall _ (@dated Sample.builtins) posts ∧
  1704067200000 < 1704153600000 ∧ 1704153600000 < 1704240000000 ∧
  @filteredAndSortedPosts Sample.builtins posts "" "all" "created_at" = [a3; a2; a1].
Proof.
  intros a1 a2 a3 posts.
  assert (("created_at" : string) ≠ "likes") as Hlikes by (by intros [=]).
  assert (("created_at" : string) ≠ "comments") as Hcomments by (by intros [=]).
  assert (@Forall _ (@dated Sample.builtins) posts) as Hposts.
  { repeat constructor; eexists; reflexivity. }
  split; [exact Hlikes|]. split; [exact Hcomments|]. split; [exact Hposts|].
  split; [lia|]. split; [lia|].
  refine (proj2 (@C7_most_recent_order Sample.builtins posts "" "all" "created_at"
                   Hlikes Hcomments Hposts)
            a1 a2 a3 1704067200000 1704153600000 1704240000000
            _ eq_refl eq_refl eq_refl ltac:(lia) ltac:(lia)).
  rewrite filteredAndSortedPosts_Permutation. cbn.
  apply perm_skip, perm_swap.
Defined.

(* ===================================================================== *)
(** * The matcher against the language of the pattern *)
(* ===================================================================== *)

Lemma append_assoc (s1 s2 s3 : string) : (s1 +:+ s2) +:+ s3 = s1 +:+ s2 +:+ s3.
Proof.
  induction s1 as [|c s1 IH]; [reflexivity|].
  rewrite !append_cons. by rewrite IH.
Qed.

Lemma append_nil_r (s : string) : s +:+ "" = s.
Proof. induction s as [|c s IH]; [reflexivity|]. rewrite append_cons. by rewrite IH. Qed.

Lemma string_length_append (s1 s2 : string) :
  Js.string_length (s1 +:+ s2) = (Js.string_length s1 + Js.string_length s2)%nat.
Proof.
  induction s1 as [|c s1 IH]; [reflexivity|].
  rewrite append_cons. cbn. by rewrite IH.
Qed.

Lemma string_take_append (s1 s2 : string) :
  Js.string_take (Js.string_length s1) (s1 +:+ s2) = s1.
Proof.
  induction s1 as [|c s1 IH]; [by destruct s2|].
  rewrite append_cons. cbn. by rewrite IH.
Qed.

Lemma string_forall_append (p : ascii → bool) (s1 s2 : string) :
  string_forall p (s1 +:+ s2) = string_forall p s1 && string_forall p s2.
Proof.
  induction s1 as [|c s1 IH]; [reflexivity|].
  rewrite append_cons. cbn. rewrite IH. by rewrite andb_assoc.
Qed.

(** What the greedy repetition has consumed satisfies the class. *)
Lemma star_sound (p : ascii → bool) (s : string) (k : string → option string)
    (rest : string) :
  Regex.star p s k = Some rest →
  ∃ pre mid, s = pre +:+ mid ∧ string_forall p pre = true ∧ k mid = Some rest.
Proof.
  revert rest. induction s as [|c s IH]; intros rest Hrun; cbn in Hrun.
  - by exists "", "".
  - destruct (p c) eqn:Hc.
    + destruct (Regex.star p s k) as [rest'|] eqn:Hstar.
      * injection Hrun as <-.
        destruct (IH rest' eq_refl) as (pre & mid & -> & Hpre & Hk).
        exists (String c pre), mid. rewrite append_cons. cbn. by rewrite Hc.
      * by exists "", (String c s).
    + by exists "", (String c s).
Qed.

(** The matcher is sound: what it has consumed when it hands over to the
    continuation is a string of the language. *)
Lemma run_sound (r : Regex.t) (s : string) (k : string → option string)
    (rest : string) :
  Regex.run r s k = Some rest →
  ∃ pre mid, s = pre +:+ mid ∧ regex_matches r pre ∧ k mid = Some rest.
Proof.
  revert s k rest. induction r as [p|r1 IH1 r2 IH2|r IH|p]; intros s k rest Hrun.
  - destruct s as [|c s]; [done|]. cbn in Hrun.
    destruct (p c) eqn:Hc; [|done].
    exists (String c ""), s. split; [reflexivity|]. split; [by constructor|done].
  - cbn in Hrun.
    destruct (IH1 _ _ _ Hrun) as (pre1 & mid1 & -> & Hm1 & Hrun2).
    destruct (IH2 _ _ _ Hrun2) as (pre2 & mid2 & -> & Hm2 & Hk).
    exists (pre1 +:+ pre2), mid2. rewrite append_assoc.
    split; [reflexivity|]. split; [by constructor|done].
  - cbn in Hrun. destruct (Regex.run r s k) as [rest'|] eqn:Hr.
    + injection Hrun as <-.
      destruct (IH _ _ _ Hr) as (pre & mid & -> & Hm & Hk).
      exists pre, mid. split; [reflexivity|]. split; [by apply matches_opt_some|done].
    + exists "", s. split; [reflexivity|]. split; [apply matches_opt_none|done].
  - cbn in Hrun. destruct (star_sound _ _ _ _ Hrun) as (pre & mid & -> & Hpre & Hk).
    exists pre, mid. split; [reflexivity|]. split; [by constructor|done].
Qed.

Lemma match_here_sound (r : Regex.t) (s m : string) :
  Regex.match_here r s = Some m →
  ∃ rest, s = m +:+ rest ∧ regex_matches r m ∧ Regex.run r s Some = Some rest.
Proof.
  unfold Regex.match_here. intros Hm.
  destruct (Regex.run r s Some) as [rest|] eqn:Hrun; [|done]. cbn in Hm.
  destruct (run_sound _ _ _ _ Hrun) as (pre & mid & -> & Hpre & [= ->]).
  injection Hm as <-. exists rest.
  rewrite string_length_append.
  replace (Js.string_length pre + Js.string_length rest - Js.string_length rest)%nat
    with (Js.string_length pre) by lia.
  rewrite string_take_append. done.
Qed.

(** What the extraction returns is a contiguous part of the text and a
    string of the language of the pattern. *)
Lemma exec_in_language (r : Regex.t) (s m : string) :
  Regex.exec r s = Some m →
  substring_of m s ∧ regex_matches r m.
Proof.
  induction s as [|c s IH]; cbn [Regex.exec].
  - destruct (Regex.match_here r "") as [m'|] eqn:Hm; [|done].
    intros [= ->]. destruct (match_here_sound _ _ _ Hm) as (rest & Hs & Hlang & _).
    split; [|done]. by exists "", rest.
  - destruct (Regex.match_here r (String c s)) as [m'|] eqn:Hm.
    + intros [= ->]. destruct (match_here_sound _ _ _ Hm) as (rest & Hs & Hlang & _).
      split; [|done]. by exists "", rest.
    + intros Hexec. destruct (IH Hexec) as [(pre & suf & ->) Hlang].
      split; [|done]. exists (String c pre), suf. by rewrite append_cons.
Qed.

(** The match starts where the matcher succeeds. *)
Lemma exec_position (r : Regex.t) (s m : string) :
  Regex.exec r s = Some m →
  ∃ pre s', s = pre +:+ s' ∧ Regex.match_here r s' = Some m.
Proof.
  induction s as [|c s IH]; cbn [Regex.exec].
  - destruct (Regex.match_here r "") as [m'|] eqn:Hm; [|done].
    intros [= ->]. by exists "", "".
  - destruct (Regex.match_here r (String c s)) as [m'|] eqn:Hm.
    + intros [= ->]. by exists "", (String c s).
    + intros Hexec. destruct (IH Hexec) as (pre & s' & -> & Hs').
      exists (String c pre), s'. by rewrite append_cons.
Qed.

Lemma matches_seq_char_inv (p : ascii → bool) (r : Regex.t) (m : string) :
  regex_matches (Regex.Seq (Regex.Char p) r) m →
  ∃ c m', m = String c m' ∧ p c = true ∧ regex_matches r m'.
Proof.
  intros Hm. inversion Hm as [| ? ? s1 s2 H1 H2 | | |]; subst.
  inversion H1; subst. eexists _, _. split; [reflexivity|]. done.
Qed.

Lemma matches_seq_opt_char_inv (p : ascii → bool) (r : Regex.t) (m : string) :
  regex_matches (Regex.Seq (Regex.Opt (Regex.Char p)) r) m →
  regex_matches r m ∨ ∃ c m', m = String c m' ∧ p c = true ∧ regex_matches r m'.
Proof.
  intros Hm. inversion Hm as [| ? ? s1 s2 H1 H2 | | |]; subst.
  inversion H1 as [| | | ? ? H1' |]; subst.
  - by left.
  - inversion H1'; subst. right. eexists _, _. split; [reflexivity|]. done.
Qed.

Lemma lit_i_lower (c d : ascii) :
  bool_decide (Js.ascii_toLowerCase d = Js.ascii_toLowerCase c) = true →
  Js.ascii_toLowerCase d = Js.ascii_toLowerCase c.
Proof. apply bool_decide_eq_true. Qed.

(** The shape of an extracted address: the scheme in either case with or
    without its s, one character that is neither white space nor one of
    / $ . ? #, one character that ends no line, and a run without white
    space. *)
Lemma URL_REGEX_language (m : string) :
  regex_matches URL_REGEX m →
  ∃ scheme c d tail,
    m = scheme +:+ String c (String d tail) ∧
    (Js.string_map Js.ascii_toLowerCase scheme = "http://" ∨
     Js.string_map Js.ascii_toLowerCase scheme = "https://") ∧
    Js.is_white_space c = false ∧
    (c ≠ "/" ∧ c ≠ "$" ∧ c ≠ "." ∧ c ≠ "?" ∧ c ≠ "#")%char ∧
    Js.is_line_terminator d = false ∧
    string_forall (λ c, negb (Js.is_white_space c)) tail = true.
Proof.
  unfold URL_REGEX, Regex.lit_i, Regex.lit. intros Hm.
  apply matches_seq_char_inv in Hm as (h & m1 & -> & Hh%lit_i_lower & Hm).
  apply matches_seq_char_inv in Hm as (t1 & m2 & -> & Ht1%lit_i_lower & Hm).
  apply matches_seq_char_inv in Hm as (t2 & m3 & -> & Ht2%lit_i_lower & Hm).
  apply matches_seq_char_inv in Hm as (p & m4 & -> & Hp%lit_i_lower & Hm).
  assert (∀ scheme m',
            Js.string_map Js.ascii_toLowerCase scheme = "http" ∨
            Js.string_map Js.ascii_toLowerCase scheme = "https" →
            regex_matches
              (Regex.Seq (Regex.Char (λ d, bool_decide (d = ":"%char)))
                 (Regex.Seq (Regex.Char (λ d, bool_decide (d = "/"%char)))
                    (Regex.Seq (Regex.Char (λ d, bool_decide (d = "/"%char)))
                       (Regex.Seq
                          (Regex.Char
                             (λ c, negb (Js.is_white_space c)
                                   && negb (bool_decide
                                              (c = "/" ∨ c = "$" ∨ c = "." ∨ c = "?"
                                               ∨ c = "#")%char)))
                          (Regex.Seq (Regex.Char (λ c, negb (Js.is_line_terminator c)))
                             (Regex.Star (λ c, negb (Js.is_white_space c)))))))) m' →
            ∃ scheme' c d tail,
              scheme +:+ m' = scheme' +:+ String c (String d tail) ∧
              (Js.string_map Js.ascii_toLowerCase scheme' = "http://" ∨
               Js.string_map Js.ascii_toLowerCase scheme' = "https://") ∧
              Js.is_white_space c = false ∧
              (c ≠ "/" ∧ c ≠ "$" ∧ c ≠ "." ∧ c ≠ "?" ∧ c ≠ "#")%char ∧
              Js.is_line_terminator d = false ∧
              string_forall (λ c, negb (Js.is_white_space c)) tail = true) as Hrest.
  { intros scheme m' Hscheme Hm'.
    apply matches_seq_char_inv in Hm' as (c1 & n1 & -> & ->%bool_decide_eq_true & Hm').
    apply matches_seq_char_inv in Hm' as (c2 & n2 & -> & ->%bool_decide_eq_true & Hm').
    apply matches_seq_char_inv in Hm' as (c3 & n3 & -> & ->%bool_decide_eq_true & Hm').
    apply matches_seq_char_inv in Hm' as (c & n4 & -> & Hc & Hm').
    apply matches_seq_char_inv in Hm' as (d & tail & -> & Hd & Hm').
    inversion Hm' as [| | | | ? ? Htail]; subst.
    apply andb_true_iff in Hc as [Hws Hclass].
    apply negb_true_iff in Hws. apply negb_true_iff, bool_decide_eq_false in Hclass.
    apply negb_true_iff in Hd.
    exists (scheme +:+ "://"), c, d, tail.
    split; [by rewrite append_assoc|].
    split.
    { assert (∀ s1 s2, Js.string_map Js.ascii_toLowerCase (s1 +:+ s2)
                = Js.string_map Js.ascii_toLowerCase s1
                  +:+ Js.string_map Js.ascii_toLowerCase s2) as Hmap.
      { intros s1 s2. induction s1 as [|x s1 IH]; [reflexivity|].
        rewrite append_cons. cbn. rewrite IH. by rewrite append_cons. }
      rewrite Hmap. destruct Hscheme as [-> | ->]; [by left | by right]. }
    split; [done|]. split; [tauto|]. done. }
  apply matches_seq_opt_char_inv in Hm as [Hm|(s & m5 & -> & Hs%lit_i_lower & Hm)].
  - apply (Hrest (String h (String t1 (String t2 (String p ""))))) in Hm.
    + exact Hm.
    + left. cbn. by rewrite Hh, Ht1, Ht2, Hp.
  - apply (Hrest (String h (String t1 (String t2 (String p (String s "")))))) in Hm.
    + exact Hm.
    + right. cbn. by rewrite Hh, Ht1, Ht2, Hp, Hs.
Qed.

Lemma has_scheme_append (scheme rest : string) :
  Js.string_map Js.ascii_toLowerCase scheme = "http://" ∨
  Js.string_map Js.ascii_toLowerCase scheme = "https://" →
  has_scheme (scheme +:+ rest) = true.
Proof.
  assert (∀ s1 s2, Js.string_map Js.ascii_toLowerCase (s1 +:+ s2)
            = Js.string_map Js.ascii_toLowerCase s1
              +:+ Js.string_map Js.ascii_toLowerCase s2) as Hmap.
  { intros s1 s2. induction s1 as [|x s1 IH]; [reflexivity|].
    rewrite append_cons. cbn. rewrite IH. by rewrite append_cons. }
  unfold has_scheme. rewrite Hmap. intros [-> | ->].
  - apply orb_true_iff. left. apply startsWith_spec. by eexists.
  - apply orb_true_iff. right. apply startsWith_spec. by eexists.
Qed.

(** X2: an extracted address starts with http:// or https://, in either
    case, and goes on for at least two more characters, the first of which
    is neither white space nor one of / $ . ? #; after those two it holds
    no white space. *)
Theorem extracted_url_shape (s m : string) :
  Regex.exec URL_REGEX s = Some m →
  has_scheme m = true ∧
  ∃ scheme c d tail,
    m = scheme +:+ String c (String d tail) ∧
    (Js.string_map Js.ascii_toLowerCase scheme = "http://" ∨
     Js.string_map Js.ascii_toLowerCase scheme = "https://") ∧
    Js.is_white_space c = false ∧
    (c ≠ "/" ∧ c ≠ "$" ∧ c ≠ "." ∧ c ≠ "?" ∧ c ≠ "#")%char ∧
    Js.is_line_terminator d = false ∧
    string_forall (λ c, negb (Js.is_white_space c)) tail = true.
Proof.
  intros Hexec. apply exec_in_language in Hexec as [_ Hlang].
  destruct (URL_REGEX_language m Hlang) as (scheme & c & d & tail & -> & Hscheme & H).
  split; [by apply has_scheme_append|].
  by exists scheme, c, d, tail.
Qed.

(** X1: for any pattern of the fragment, what the extraction returns is a
    contiguous part of the text and a string of the language of the
    pattern, and it is the leftmost match: at no earlier position of the
    text does the matcher succeed. *)
Theorem extraction_is_part_of_text (r : Regex.t) (s m : string) :
  Regex.exec r s = Some m →
  substring_of m s ∧ regex_matches r m ∧
  ∃ pre rest,
    s = pre +:+ m +:+ rest ∧
    ∀ a b, pre = a +:+ b → b ≠ "" → Regex.match_here r (b +:+ m +:+ rest) = None.
Proof.
  intros Hexec.
  destruct (exec_in_language r s m Hexec) as [Hsub Hlang].
  split; [exact Hsub|]. split; [exact Hlang|]. clear Hsub Hlang.
  assert (∀ s', Regex.match_here r s' = Some m →
            ∃ rest, s' = "" +:+ m +:+ rest ∧
              ∀ a b, "" = a +:+ b → b ≠ "" →
                Regex.match_here r (b +:+ m +:+ rest) = None) as Hhere.
  { intros s' Hm. destruct (match_here_sound _ _ _ Hm) as (rest & -> & _).
    exists rest. split; [reflexivity|].
    intros a b Hab Hb. destruct a; [|by rewrite append_cons in Hab].
    rewrite append_nil_l in Hab. by subst. }
  induction s as [|c s IH]; cbn [Regex.exec] in Hexec.
  - destruct (Regex.match_here r "") as [m'|] eqn:Hm; [|done].
    injection Hexec as ->. destruct (Hhere _ Hm) as (rest & Hs & Hleft).
    by exists "", rest.
  - destruct (Regex.match_here r (String c s)) as [m'|] eqn:Hm.
    + injection Hexec as ->. destruct (Hhere _ Hm) as (rest & Hs & Hleft).
      by exists "", rest.
    + destruct (IH Hexec) as (pre & rest & -> & Hleft).
      exists (String c pre), rest. split; [by rewrite append_cons|].
      intros a b Hab Hb. destruct a as [|c' a].
      * rewrite append_nil_l in Hab. subst b. by rewrite append_cons.
      * rewrite append_cons in Hab. injection Hab as <- ->. by apply (Hleft a b).
Qed.

Lemma extraction_is_part_of_text_witness :
  Regex.exec URL_REGEX "Read http://a.example/1 now" = Some "http://a.example/1" ∧
  substring_of "http://a.example/1" "Read http://a.example/1 now" ∧
  regex_matches URL_REGEX "http://a.example/1".
Proof.
  assert (Regex.exec URL_REGEX "Read http://a.example/1 now" = Some "http://a.example/1")
    as Hexec by (vm_compute; reflexivity).
  split; [exact Hexec|].
  pose proof (extraction_is_part_of_text URL_REGEX "Read http://a.example/1 now"
                "http://a.example/1" Hexec) as (Hsub & Hlang & _).
  split; [exact Hsub | exact Hlang].
Defined.

Lemma extracted_url_shape_witness :
  Regex.exec URL_REGEX "see HTTPS://Example.org/a?b=1 (new)" = Some "HTTPS://Example.org/a?b=1" ∧
  has_scheme "HTTPS://Example.org/a?b=1" = true.
Proof.
  assert (Regex.exec URL_REGEX "see HTTPS://Example.org/a?b=1 (new)"
            = Some "HTTPS://Example.org/a?b=1") as Hexec by (vm_compute; reflexivity).
  split; [exact Hexec|].
  exact (proj1 (extracted_url_shape _ _ Hexec)).
Defined.

Lemma run_seq_inv (r1 r2 : Regex.t) (s : string) (k : string → option string)
    (rest : string) :
  Regex.run (Regex.Seq r1 r2) s k = Some rest →
  ∃ mid, Regex.run r2 mid k = Some rest.
Proof.
  intros Hrun. cbn in Hrun.
  destruct (run_sound _ _ _ _ Hrun) as (pre & mid & _ & _ & Hk). by exists mid.
Qed.

(** With nothing to match after it, the greedy repetition stops only at the
    end of the text or at a character outside the class. *)
Lemma star_maximal (p : ascii → bool) (s rest : string) :
  Regex.star p s Some = Some rest →
  match first_char rest with Some c => p c = false | None => True end.
Proof.
  revert rest. induction s as [|c s IH]; intros rest Hrun; cbn in Hrun.
  - by injection Hrun as <-.
  - destruct (p c) eqn:Hc.
    + destruct (Regex.star p s Some) as [rest'|] eqn:Hstar.
      * injection Hrun as <-. by apply IH.
      * injection Hrun as <-. exfalso.
        clear IH. revert Hstar. clear. induction s as [|d s IH]; cbn; [done|].
        destruct (p d); [|done]. by destruct (Regex.star p s Some).
    + by injection Hrun as <-.
Qed.

(** X3: the extracted address runs up to the next white space: in the
    text it is followed by nothing or by a white-space character. *)
Theorem extracted_url_ends_at_white_space (s m : string) :
  Regex.exec URL_REGEX s = Some m →
  ∃ pre rest,
    s = pre +:+ m +:+ rest ∧
    match first_char rest with
    | Some c => Js.is_white_space c = true
    | None => True
    end.
Proof.
  intros Hexec.
  destruct (exec_position _ _ _ Hexec) as (pre & s' & -> & Hhere).
  destruct (match_here_sound _ _ _ Hhere) as (rest & -> & _ & Hrun).
  exists pre, rest. split; [reflexivity|].
  unfold URL_REGEX in Hrun.
  do 10 (apply run_seq_inv in Hrun as [? Hrun]).
  cbn [Regex.run] in Hrun. apply star_maximal in Hrun.
  destruct (first_char rest) as [c|]; [|done].
  by apply negb_false_iff in Hrun.
Qed.

Lemma extracted_url_ends_at_white_space_witness :
  Regex.exec URL_REGEX "Check https://wikipedia.org/x out" = Some "https://wikipedia.org/x" ∧
  ∃ pre rest,
    "Check https://wikipedia.org/x out" = pre +:+ "https://wikipedia.org/x" +:+ rest ∧
    match first_char rest with
    | Some c => Js.is_white_space c = true
    | None => True
    end.
Proof.
  assert (Regex.exec URL_REGEX "Check https://wikipedia.org/x out"
            = Some "https://wikipedia.org/x") as Hexec by (vm_compute; reflexivity).
  split; [exact Hexec|].
  exact (extracted_url_ends_at_white_space _ _ Hexec).
Defined.

(* ===================================================================== *)
(** * Trimming *)
(* ===================================================================== *)

Lemma trimStart_first (s : string) :
  match first_char (Js.trimStart s) with
  | Some c => Js.is_white_space c = false
  | None => True
  end.
Proof.
  induction s as [|c s IH]; cbn; [done|].
  destruct (Js.is_white_space c) eqn:Hc; [done|]. cbn. done.
Qed.

Lemma trimEnd_last (s : string) :
  match last_char (Js.trimEnd s) with
  | Some c => Js.is_white_space c = false
  | None => True
  end.
Proof.
  induction s as [|c s IH]; cbn; [done|].
  destruct (Js.is_white_space c) eqn:Hc; cbn.
  - destruct (Js.trimEnd s) as [|d t] eqn:Ht; cbn; [done|]. exact IH.
  - destruct (Js.trimEnd s) as [|d t] eqn:Ht; cbn; [done|]. exact IH.
Qed.

Lemma trimEnd_first (c : ascii) (s : string) :
  Js.is_white_space c = false →
  Js.trimEnd (String c s) = String c (Js.trimEnd s).
Proof. intros Hc. cbn. by rewrite Hc. Qed.

Lemma trimStart_fixed (s : string) :
  match first_char s with
  | Some c => Js.is_white_space c = false
  | None => True
  end →
  Js.trimStart s = s.
Proof. destruct s as [|c s]; cbn; [done|]. by intros ->. Qed.

Lemma trimEnd_idemp (s : string) : Js.trimEnd (Js.trimEnd s) = Js.trimEnd s.
Proof.
  induction s as [|c s IH]; cbn; [done|].
  destruct (Js.is_white_space c && Js.is_empty (Js.trimEnd s)) eqn:Hc; [done|].
  cbn. rewrite IH. by rewrite Hc.
Qed.

(** What [trim] returns starts and ends with a character that is no white
    space, and is left alone by [trim]. *)
Lemma trim_spec (s : string) :
  match first_char (Js.trim s) with
  | Some c => Js.is_white_space c = false
  | None => True
  end ∧
  match last_char (Js.trim s) with
  | Some c => Js.is_white_space c = false
  | None => True
  end ∧
  Js.trim (Js.trim s) = Js.trim s.
Proof.
  unfold Js.trim.
  pose proof (trimStart_first s) as Hfirst.
  assert (match first_char (Js.trimEnd (Js.trimStart s)) with
          | Some c => Js.is_white_space c = false
          | None => True
          end) as Hfirst'.
  { destruct (Js.trimStart s) as [|c t]; [done|]. cbn in Hfirst.
    rewrite trimEnd_first by done. done. }
  split; [exact Hfirst'|]. split; [apply trimEnd_last|].
  rewrite (trimStart_fixed _ Hfirst'). apply trimEnd_idemp.
Qed.

(** A text of white space only trims to nothing. *)
Lemma trim_blank (s : string) :
  string_forall Js.is_white_space s = true → Js.trim s = "".
Proof.
  unfold Js.trim. induction s as [|c s IH]; cbn; [done|].
  intros [Hc Hs]%andb_true_iff. rewrite Hc. by apply IH.
Qed.

(** X16: a comment reaches the store only for the post it was typed
    under, in the acting user's name, and with the typed text stripped of
    the white space around it: a text that is not empty, neither starts nor
    ends with white space, and that [trim] leaves alone. *)
Theorem comment_sent_is_trimmed
    (user : option User.t) (profile : option Profile.t) (clock : Clock.t)
    (posts : list Post.t) (newComments : gmap string string) (postId : string)
    (r_comments r_notification : outcome) (post_id user_id content : string) :
  Remote (CommentsInsert post_id user_id content)
    ∈ handleAddComment user profile clock posts newComments postId
        r_comments r_notification →
  post_id = postId ∧
  Some user_id = User.id <$> user ∧
  (∃ text, newComments !! postId = Some text ∧ content = Js.trim text) ∧
  content ≠ "" ∧
  match first_char content with
  | Some c => Js.is_white_space c = false
  | None => True
  end ∧
  match last_char content with
  | Some c => Js.is_white_space c = false
  | None => True
  end ∧
  Js.trim content = content.
Proof.
  unfold handleAddComment. intros Hin.
  destruct user as [u|]; [|set_solver].
  destruct (newComments !! postId) as [text|] eqn:Htext; cbn in Hin; [|set_solver].
  destruct profile as [prof|]; [|set_solver].
  destruct (Js.truthy (Js.trim text)) eqn:Htruthy; [|set_solver].
  assert (post_id = postId ∧ user_id = User.id u ∧ content = Js.trim text)
    as (-> & -> & ->).
  { destruct r_comments as [[error|]|reason]; cbn in Hin.
    - set_solver.
    - destruct (list_find (λ p, Post.id p = postId) posts) as [[k post]|];
        [destruct (decide (Post.user_id post ≠ User.id u)); [destruct r_notification|]|];
        cbn in Hin; set_solver.
    - set_solver. }
  destruct (trim_spec text) as (Hfirst & Hlast & Hidemp).
  split; [done|]. split; [done|]. split; [by exists text|].
  split; [|done].
  intros Hempty. rewrite Hempty in Htruthy. done.
Qed.

Lemma comment_sent_is_trimmed_witness :
  let post := Sample.post "p1" "bob" Sample.T1 "wisdom" (Some "hello") None None in
  let newComments : gmap string string := {[ "p1" := "  nice one " ]} in
  Remote (CommentsInsert "p1" "ann" "nice one")
    ∈ handleAddComment (Some Sample.ann) (Some Sample.student) Sample.clock [post]
        newComments "p1" (Resolved None) (Resolved None) ∧
  Js.trim "nice one" = "nice one".
Proof.
  intros post newComments.
  assert (Remote (CommentsInsert "p1" "ann" "nice one")
            ∈ handleAddComment (Some Sample.ann) (Some Sample.student) Sample.clock [post]
                newComments "p1" (Resolved None) (Resolved None)) as Hin.
  { vm_compute. do 2 apply list_elem_of_further. apply list_elem_of_here. }
  split; [exact Hin|].
  exact (proj2 (proj2 (proj2 (proj2 (proj2 (proj2
           (comment_sent_is_trimmed _ _ _ _ _ _ _ _ _ _ _ Hin))))))).
Defined.

(* ===================================================================== *)
(** * The container: identifiers, absent targets, insert and delete *)
(* ===================================================================== *)

Section ContainerFacts.
Implicit Types (posts : list Post.t) (postId : string).

Lemma updatePostInState_ids postId (d : PartialPost.t) posts :
  PartialPost.id d = None ∨ PartialPost.id d = Some postId →
  Post.id <$> updatePostInState postId d posts = Post.id <$> posts.
Proof.
  intros Hid. unfold updatePostInState. rewrite <- list_fmap_compose.
  apply list_fmap_ext. intros i p _. cbn.
  destruct (decide (Post.id p = postId)) as [Hp|Hp]; [|done].
  unfold PartialPost.spread. cbn. by destruct Hid as [-> | ->].
Qed.

Lemma removePostFromState_ids postId posts :
  Post.id <$> removePostFromState postId posts
    = filter (λ i, i ≠ postId) (Post.id <$> posts).
Proof.
  unfold removePostFromState. induction posts as [|p posts IH]; [done|].
  rewrite fmap_cons, !filter_cons.
  destruct (decide (Post.id p ≠ postId)); cbn; by rewrite IH.
Qed.

Lemma appendComment_ids postId c posts :
  Post.id <$> appendComment postId c posts = Post.id <$> posts.
Proof.
  unfold appendComment. rewrite <- list_fmap_compose.
  apply list_fmap_ext. intros i p _. cbn. by destruct (decide (Post.id p = postId)).
Qed.

Lemma removeComment_ids postId commentId posts :
  Post.id <$> removeComment postId commentId posts = Post.id <$> posts.
Proof.
  unfold removeComment. rewrite <- list_fmap_compose.
  apply list_fmap_ext. intros i p _. cbn. by destruct (decide (Post.id p = postId)).
Qed.

Lemma fmap_id_absent (f : Post.t → Post.t) postId posts :
  postId ∉ Post.id <$> posts →
  (λ p, if decide (Post.id p = postId) then f p else p) <$> posts = posts.
Proof.
  intros Habsent. induction posts as [|p posts IH]; [done|].
  rewrite fmap_cons in Habsent. apply not_elem_of_cons in Habsent as [Hp Hposts].
  rewrite fmap_cons, IH by done.
  by rewrite decide_False by done.
Qed.

End ContainerFacts.

(** X10: while the identifiers of the collection are distinct, every write
    of the component keeps them so, a realtime insert included as long as
    the pushed identifier is not yet there: removal, the realtime update, the
    optimistic like, comment and rollback, and the optimistic edit. *)
Theorem ids_stay_distinct (posts : list Post.t) :
  NoDup (Post.id <$> posts) →
  (∀ postId, NoDup (Post.id <$> removePostFromState postId posts)) ∧
  (∀ updatedPost,
     NoDup (Post.id <$> updatePostInState (Post.id updatedPost)
                          (PartialPost.of_row false updatedPost) posts)) ∧
  (∀ newPost,
     Post.id newPost ∉ Post.id <$> posts →
     NoDup (Post.id <$> addPostToState newPost posts)) ∧
  (∀ u clock post, NoDup (Post.id <$> applyLikeToggle u clock post posts)) ∧
  (∀ postId c, NoDup (Post.id <$> appendComment postId c posts)) ∧
  (∀ postId commentId, NoDup (Post.id <$> removeComment postId commentId posts)) ∧
  (∀ postId fields,
     NoDup (Post.id <$> updatePostInState postId (PostEdit.as_partial fields) posts)).
Proof.
  intros Hnd. split_and!.
  - intros postId. rewrite removePostFromState_ids. by apply NoDup_filter.
  - intros updatedPost. rewrite updatePostInState_ids; [done|by right].
  - intros newPost Hfresh. unfold addPostToState. rewrite fmap_cons.
    by apply NoDup_cons.
  - intros u clock post. unfold applyLikeToggle.
    rewrite updatePostInState_ids; [done|by left].
  - intros postId c. by rewrite appendComment_ids.
  - intros postId commentId. by rewrite removeComment_ids.
  - intros postId fields. rewrite updatePostInState_ids; [done|by left].
Qed.

Lemma ids_stay_distinct_witness :
  let a := Sample.post "p1" "ann" Sample.T1 "wisdom" (Some "first") None None in
  let b := Sample.post "p2" "bob" Sample.T2 "wisdom" (Some "second") None None in
  NoDup (Post.id <$> [a; b]) ∧
  NoDup (Post.id <$> removePostFromState "p1" [a; b]).
Proof.
  intros a b.
  assert (NoDup (Post.id <$> [a; b])) as Hnd.
  { cbn. apply NoDup_cons. split; [|apply NoDup_singleton].
    intros Hin. apply list_elem_of_singleton in Hin. discriminate Hin. }
  split; [exact Hnd|].
  exact (proj1 (ids_stay_distinct [a; b] Hnd) "p1").
Defined.

(** X11: an update aimed at an identifier the collection does not hold
    changes nothing: the patch, the removal, the optimistic comment and its
    rollback, and the optimistic like of a post that has gone. *)
Theorem absent_target_is_untouched (posts : list Post.t) (postId : string) :
  postId ∉ Post.id <$> posts →
  (∀ d, updatePostInState postId d posts = posts) ∧
  removePostFromState postId posts = posts ∧
  (∀ c, appendComment postId c posts = posts) ∧
  (∀ commentId, removeComment postId commentId posts = posts) ∧
  (∀ u clock post, Post.id post = postId → applyLikeToggle u clock post posts = posts).
Proof.
  intros Habsent. split_and!.
  - intros d. unfold updatePostInState. by apply fmap_id_absent.
  - unfold removePostFromState. apply filter_all.
    apply Forall_forall. intros p Hp Hid. apply Habsent.
    rewrite <- Hid. by apply list_elem_of_fmap_2.
  - intros c. unfold appendComment. by apply fmap_id_absent.
  - intros commentId. unfold removeComment. by apply fmap_id_absent.
  - intros u clock post <-. unfold applyLikeToggle, updatePostInState.
    by apply fmap_id_absent.
Qed.

Lemma absent_target_is_untouched_witness :
  let a := Sample.post "p1" "ann" Sample.T1 "wisdom" (Some "first") None None in
  (("p9" : string) ∉ (Post.id <$> [a])) ∧
  removePostFromState "p9" [a] = [a].
Proof.
  intros a.
  assert (("p9" : string) ∉ Post.id <$> [a]) as Habsent.
  { cbn. intros Hin. apply list_elem_of_singleton in Hin. discriminate Hin. }
  split; [exact Habsent|].
  exact (proj1 (proj2 (absent_target_is_untouched [a] "p9" Habsent))).
Defined.

(** X12: a realtime insert of a post whose identifier is new, followed by the
    realtime delete of that identifier, gives back the collection as it
    was. *)
Theorem insert_then_delete_restores (newPost : Post.t) (st : FeedState.t) :
  Post.id newPost ∉ Post.id <$> FeedState.posts st →
  FeedState.posts
    (apply_effects (on_realtime_event (PostsDelete (Post.id newPost)))
       (apply_effects (on_realtime_event (PostsInsert newPost)) st))
    = FeedState.posts st.
Proof.
  intros Hfresh.
  cbn [on_realtime_event apply_effects foldl apply_effect FeedState.posts].
  unfold addPostToState, removePostFromState.
  rewrite filter_cons_False by (intros Hne; by apply Hne).
  apply filter_all. apply Forall_forall. intros p Hp Hid. apply Hfresh.
  rewrite <- Hid. by apply list_elem_of_fmap_2.
Qed.

Lemma insert_then_delete_restores_witness :
  let a := Sample.post "p1" "ann" Sample.T1 "wisdom" (Some "first") None None in
  let b := Sample.post "p2" "bob" Sample.T2 "wisdom" (Some "second") None None in
  (Post.id b ∉ (Post.id <$> FeedState.posts (Sample.state [a]))) ∧
  FeedState.posts
    (apply_effects (on_realtime_event (PostsDelete "p2"))
       (apply_effects (on_realtime_event (PostsInsert b)) (Sample.state [a])))
    = [a].
Proof.
  intros a b.
  assert (Post.id b ∉ Post.id <$> FeedState.posts (Sample.state [a])) as Hfresh.
  { cbn. intros Hin. apply list_elem_of_singleton in Hin. discriminate Hin. }
  split; [exact Hfresh|].
  exact (insert_then_delete_restores b (Sample.state [a]) Hfresh).
Defined.

(* ===================================================================== *)
(** * The projection: what it holds, its order, its stability *)
(* ===================================================================== *)

Section SortMore.
Context {A : Type} (compareFn : A → A → Js.number).

(** A list that is in order is returned as it is. *)
Lemma sort_fixed (l : list A) :
  StronglySorted (may_precede compareFn) l → Array.sort compareFn l = l.
Proof.
  induction 1 as [|x l Hsorted IH Hx]; [done|].
  cbn. fold (Array.sort compareFn l). rewrite IH.
  destruct l as [|y l]; [done|]. cbn.
  apply Forall_cons in Hx as [Hxy _]. unfold may_precede in Hxy. by rewrite Hxy.
Qed.

Variable P : A → Prop.
Hypothesis trans : ∀ x y z,
  P x → P y → P z →
  may_precede compareFn x y → may_precede compareFn y z → may_precede compareFn x z.

Lemma tied_spec (x y : A) :
  tied compareFn x y = true ↔ may_precede compareFn x y ∧ may_precede compareFn y x.
Proof. unfold tied, may_precede. by rewrite andb_true_iff. Qed.

(** Inserting an element does not move it past an element it ties with. *)
Lemma insert_filter_tied (x a : A) (s : list A) :
  P x → P a → Forall P s →
  filter (λ y, tied compareFn x y = true) (Array.insert compareFn a s)
    = filter (λ y, tied compareFn x y = true) (a :: s).
Proof.
  intros Hx Ha Hs. induction Hs as [|y s Hy Hs IH]; [done|].
  cbn [Array.insert].
  destruct (Array.keeps_order (compareFn a y)) eqn:Hay; [done|].
  rewrite filter_cons, IH.
  destruct (decide (tied compareFn x y = true)) as [Hty|Hty].
  - rewrite (filter_cons _ a (y :: s)).
    destruct (decide (tied compareFn x a = true)) as [Hta|Hta].
    + exfalso. apply tied_spec in Hty as [Hxy _]. apply tied_spec in Hta as [_ Hax].
      pose proof (trans a x y Ha Hx Hy Hax Hxy) as Hay'.
      unfold may_precede in Hay'. by rewrite Hay in Hay'.
    + rewrite (filter_cons_False _ a s) by done.
      by rewrite (filter_cons_True _ y s).
  - rewrite (filter_cons _ a (y :: s)), (filter_cons _ a s).
    rewrite (filter_cons_False _ y s) by done.
    by destruct (decide (tied compareFn x a = true)).
Qed.

(** The sort is stable: the elements that tie with a given one come out in
    the order they went in. *)
Lemma sort_stable (x : A) (l : list A) :
  P x → Forall P l →
  filter (λ y, tied compareFn x y = true) (Array.sort compareFn l)
    = filter (λ y, tied compareFn x y = true) l.
Proof.
  intros Hx. induction 1 as [|a l Ha Hl IH]; [done|].
  cbn [Array.sort foldr]. fold (Array.sort compareFn l).
  rewrite insert_filter_tied; [|done..|by rewrite sort_Permutation].
  by rewrite !filter_cons, IH.
Qed.

End SortMore.

Section ProjectionFacts.
Context `{Builtins}.

Lemma comparator_total (sortBy : string) (x y : Post.t) :
  dated x → dated y →
  ¬ may_precede (comparator sortBy) x y → may_precede (comparator sortBy) y x.
Proof.
  unfold comparator.
  destruct (decide (sortBy = "likes")); [apply count_then_time_total|].
  destruct (decide (sortBy = "comments")); [apply count_then_time_total|].
  apply created_at_total.
Qed.

Lemma comparator_trans (sortBy : string) (x y z : Post.t) :
  dated x → dated y → dated z →
  may_precede (comparator sortBy) x y → may_precede (comparator sortBy) y z →
  may_precede (comparator sortBy) x z.
Proof.
  unfold comparator.
  destruct (decide (sortBy = "likes")); [apply count_then_time_trans|].
  destruct (decide (sortBy = "comments")); [apply count_then_time_trans|].
  apply created_at_trans.
Qed.

Lemma projection_sorted (posts : list Post.t) (searchQuery filter_ sortBy : string) :
  Forall dated posts →
  StronglySorted (may_precede (comparator sortBy))
    (filteredAndSortedPosts posts searchQuery filter_ sortBy).
Proof.
  intros Hposts. apply (sort_sorted _ dated).
  - apply comparator_total.
  - apply comparator_trans.
  - by apply steps_dated.
Qed.

Lemma steps_filter (posts : list Post.t) (searchQuery filter_ : string) :
  type_step filter_ (search_step searchQuery posts)
    = filter (λ p, (searchQuery = "" ∨ matches_search searchQuery p = true)
                   ∧ (filter_ = "all" ∨ Post.post_type p = filter_)) posts.
Proof.
  assert (search_step searchQuery posts
            = filter (λ p, searchQuery = "" ∨ matches_search searchQuery p = true) posts)
    as ->.
  { unfold search_step. destruct searchQuery as [|c q]; cbn.
    - symmetry. apply filter_all, Forall_forall. intros p _. by left.
    - apply list_filter_iff. intros p. split; [by right|by intros [?|?]]. }
  unfold type_step. destruct (decide (filter_ ≠ "all")) as [Hf|Hf].
  - rewrite list_filter_filter. apply list_filter_iff. intros p.
    split; [intros [? ?]; split; [done|by right] | intros [? [?|?]]; done].
  - apply dec_stable in Hf. apply list_filter_iff. intros p.
    split; [intros ?; split; [done|by left] | by intros [? _]].
Qed.

(** X5: the projection holds exactly the posts that pass the search and
    the type filter, each as often as the state holds it: it is a
    rearrangement of them, so it is never longer than the state. *)
Theorem projection_is_rearrangement
    (posts : list Post.t) (searchQuery filter_ sortBy : string) :
  filteredAndSortedPosts posts searchQuery filter_ sortBy
    ≡ₚ filter (λ p, (searchQuery = "" ∨ matches_search searchQuery p = true)
                    ∧ (filter_ = "all" ∨ Post.post_type p = filter_)) posts ∧
  (length (filteredAndSortedPosts posts searchQuery filter_ sortBy) ≤ length posts)%nat.
Proof.
  assert (filteredAndSortedPosts posts searchQuery filter_ sortBy
            ≡ₚ filter (λ p, (searchQuery = "" ∨ matches_search searchQuery p = true)
                            ∧ (filter_ = "all" ∨ Post.post_type p = filter_)) posts)
    as Hperm.
  { unfold filteredAndSortedPosts. by rewrite sort_Permutation, steps_filter. }
  split; [exact Hperm|]. rewrite Hperm. apply length_filter.
Qed.

(** X6: under the sort by likes a post with more likes stands before a
    post with fewer. *)
Theorem more_likes_first
    (posts : list Post.t) (searchQuery filter_ : string)
    (i j : nat) (P Q : Post.t) :
  Forall dated posts →
  let out := filteredAndSortedPosts posts searchQuery filter_ "likes" in
  out !! i = Some P → out !! j = Some Q →
  Post.likes_length Q < Post.likes_length P →
  (i < j)%nat.
Proof.
  intros Hposts out Hi Hj Hmore.
  pose proof (sorted_by_likes posts searchQuery filter_ Hposts) as Hsorted.
  fold out in Hsorted. rewrite compare_likes_shape in Hsorted.
  assert (Forall dated out) as Hout.
  { subst out. rewrite filteredAndSortedPosts_Permutation. by apply steps_dated. }
  destruct (Forall_lookup_1 _ _ _ _ Hout Hi) as [tP HtP].
  destruct (Forall_lookup_1 _ _ _ _ Hout Hj) as [tQ HtQ].
  destruct (lt_eq_lt_dec i j) as [[Hlt|Heq]|Hgt]; [done| |].
  - subst j. rewrite Hi in Hj. injection Hj as <-. lia.
  - pose proof (StronglySorted_lookup_lt _ _ _ _ _ _ Hsorted Hj Hi Hgt) as HQP.
    apply (may_precede_count_then_time _ Q P tQ tP HtQ HtP) in HQP. lia.
Qed.

(** X7: under the sort by comments a post with more comments stands
    before a post with fewer, and of two posts with as many comments and
    different creation times the newer stands first. *)
Theorem comments_order
    (posts : list Post.t) (searchQuery filter_ : string)
    (i j : nat) (P Q : Post.t) (tP tQ : Z) :
  Forall dated posts →
  let out := filteredAndSortedPosts posts searchQuery filter_ "comments" in
  out !! i = Some P → out !! j = Some Q →
  getTime P = Some tP → getTime Q = Some tQ →
  (Post.comments_length Q < Post.comments_length P → (i < j)%nat) ∧
  (Post.comments_length P = Post.comments_length Q → tP ≠ tQ →
   ((i < j)%nat ↔ tQ < tP)).
Proof.
  intros Hposts out Hi Hj HtP HtQ.
  pose proof (sorted_by_comments posts searchQuery filter_ Hposts) as Hsorted.
  fold out in Hsorted. rewrite compare_comments_shape in Hsorted.
  assert (∀ a b (P' Q' : Post.t) tP' tQ',
            out !! a = Some P' → out !! b = Some Q' →
            getTime P' = Some tP' → getTime Q' = Some tQ' → (a < b)%nat →
            Post.comments_length Q' < Post.comments_length P' ∨
            (Post.comments_length Q' = Post.comments_length P' ∧ tQ' ≤ tP')) as Hord.
  { intros a b P' Q' tP' tQ' Ha Hb HP' HQ' Hab.
    pose proof (StronglySorted_lookup_lt _ _ _ _ _ _ Hsorted Ha Hb Hab) as HPQ.
    by apply (may_precede_count_then_time _ P' Q' tP' tQ' HP' HQ') in HPQ. }
  split.
  - intros Hmore. destruct (lt_eq_lt_dec i j) as [[Hlt|Heq]|Hgt]; [done| |].
    + subst j. rewrite Hi in Hj. injection Hj as <-. lia.
    + pose proof (Hord j i Q P tQ tP Hj Hi HtQ HtP Hgt). lia.
  - intros Hsame Hne. split.
    + intros Hlt. pose proof (Hord i j P Q tP tQ Hi Hj HtP HtQ Hlt). lia.
    + intros Hnewer. destruct (lt_eq_lt_dec i j) as [[Hlt|Heq]|Hgt]; [done| |].
      * subst j. rewrite Hi in Hj. injection Hj as <-.
        rewrite HtP in HtQ. injection HtQ as <-. lia.
      * pose proof (Hord j i Q P tQ tP Hj Hi HtQ HtP Hgt). lia.
Qed.

(** X8: the projection is stable. The posts that tie with a given post
    under the sort key, so that neither has to stand first, come out in the
    order the filtered state holds them. *)
Theorem projection_is_stable
    (posts : list Post.t) (searchQuery filter_ sortBy : string) (x : Post.t) :
  Forall dated posts → dated x →
  filter (λ y, tied (comparator sortBy) x y = true)
    (filteredAndSortedPosts posts searchQuery filter_ sortBy)
  = filter (λ y, tied (comparator sortBy) x y = true)
      (type_step filter_ (search_step searchQuery posts)).
Proof.
  intros Hposts Hx. unfold filteredAndSortedPosts.
  apply (sort_stable _ dated); [apply comparator_trans|done|by apply steps_dated].
Qed.

(** X9: the sort runs in place on the state when there is neither query
    nor type filter. Running the memo again on the state it has left, with
    the same inputs, returns the same list and leaves the state alone. *)
Theorem projection_again_is_same
    (posts : list Post.t) (searchQuery filter_ sortBy : string) :
  Forall dated posts →
  let posts' := posts_after_projection posts searchQuery filter_ sortBy in
  filteredAndSortedPosts posts' searchQuery filter_ sortBy
    = filteredAndSortedPosts posts searchQuery filter_ sortBy ∧
  posts_after_projection posts' searchQuery filter_ sortBy = posts'.
Proof.
  intros Hposts posts'. subst posts'. unfold posts_after_projection.
  destruct (Js.truthy searchQuery || bool_decide (filter_ ≠ "all")) eqn:Hcopy; [done|].
  apply orb_false_iff in Hcopy as [Hq Hf].
  assert (∀ l, type_step filter_ (search_step searchQuery l) = l) as Hsteps.
  { intros l. unfold search_step, type_step. rewrite Hq.
    apply bool_decide_eq_false in Hf. by rewrite decide_False. }
  assert (filteredAndSortedPosts
            (filteredAndSortedPosts posts searchQuery filter_ sortBy)
            searchQuery filter_ sortBy
          = filteredAndSortedPosts posts searchQuery filter_ sortBy) as Hagain.
  { unfold filteredAndSortedPosts at 1. rewrite Hsteps.
    apply sort_fixed. by apply projection_sorted. }
  split; [exact Hagain|]. by rewrite Hagain.
Qed.

End ProjectionFacts.

Lemma more_likes_first_witness :
  let older := Sample.post "p1" "ann" Sample.T1 "wisdom" (Some "older")
                 (Some [Sample.like 1 "p1" "bob"]) None in
  let liked := Sample.post "p3" "bob" Sample.T1 "wisdom" (Some "liked")
                 (Some [Sample.like 3 "p3" "ann"; Sample.like 4 "p3" "bob"]) None in
  let posts := [older; liked] in
  @Forall _ (@dated Sample.builtins) posts ∧
  @filteredAndSortedPosts Sample.builtins posts "" "all" "likes" !! 0%nat = Some liked ∧
  @filteredAndSortedPosts Sample.builtins posts "" "all" "likes" !! 1%nat = Some older ∧
  Post.likes_length older < Post.likes_length liked ∧
  (0 < 1)%nat.
Proof.
  intros older liked posts.
  assert (@Forall _ (@dated Sample.builtins) posts) as Hposts.
  { repeat constructor; eexists; reflexivity. }
  assert (Post.likes_length older < Post.likes_length liked) as Hmore by (cbn; lia).
  split; [exact Hposts|]. split; [vm_compute; reflexivity|].
  split; [vm_compute; reflexivity|]. split; [exact Hmore|].
  exact (@more_likes_first Sample.builtins posts "" "all" 0%nat 1%nat liked older
           Hposts eq_refl eq_refl Hmore).
Defined.

Lemma comments_order_witness :
  let quiet := Sample.post "p1" "ann" Sample.T2 "wisdom" (Some "quiet") None (Some []) in
  let busy := Sample.post "p2" "bob" Sample.T1 "wisdom" (Some "busy") None
                (Some [Sample.comment "c1" "p2" "ann" "hi"]) in
  let posts := [quiet; busy] in
  @Forall _ (@dated Sample.builtins) posts ∧
  @filteredAndSortedPosts Sample.builtins posts "" "all" "comments" = [busy; quiet] ∧
  (Post.comments_length quiet < Post.comments_length busy → (0 < 1)%nat).
Proof.
  intros quiet busy posts.
  assert (@Forall _ (@dated Sample.builtins) posts) as Hposts.
  { repeat constructor; eexists; reflexivity. }
  split; [exact Hposts|]. split; [vm_compute; reflexivity|].
  exact (proj1 (@comments_order Sample.builtins posts "" "all" 0%nat 1%nat busy quiet
                  1704067200000 1704153600000 Hposts eq_refl eq_refl eq_refl eq_refl)).
Defined.

Lemma projection_is_stable_witness :
  let a := Sample.post "p1" "ann" Sample.T1 "wisdom" (Some "a") None None in
  let b := Sample.post "p2" "bob" Sample.T2 "wisdom" (Some "b") None None in
  let c := Sample.post "p3" "ann" Sample.T1 "wisdom" (Some "c") None None in
  let posts := [a; b; c] in
  @Forall _ (@dated Sample.builtins) posts ∧
  @dated Sample.builtins a ∧
  @filteredAndSortedPosts Sample.builtins posts "" "all" "created_at" = [b; a; c] ∧
  filter (λ y, tied (@comparator Sample.builtins "created_at") a y = true)
    (@filteredAndSortedPosts Sample.builtins posts "" "all" "created_at")
  = filter (λ y, tied (@comparator Sample.builtins "created_at") a y = true)
      (@type_step "all" (@search_step Sample.builtins "" posts)).
Proof.
  intros a b c posts.
  assert (@Forall _ (@dated Sample.builtins) posts) as Hposts.
  { repeat constructor; eexists; reflexivity. }
  assert (@dated Sample.builtins a) as Ha by (eexists; reflexivity).
  split; [exact Hposts|]. split; [exact Ha|]. split; [vm_compute; reflexivity|].
  exact (@projection_is_stable Sample.builtins posts "" "all" "created_at" a Hposts Ha).
Defined.

Lemma projection_again_is_same_witness :
  let a := Sample.post "p1" "ann" Sample.T1 "wisdom" (Some "a") None None in
  let b := Sample.post "p2" "bob" Sample.T2 "wisdom" (Some "b") None None in
  let posts := [a; b] in
  @Forall _ (@dated Sample.builtins) posts ∧
  @posts_after_projection Sample.builtins posts "" "all" "created_at" = [b; a] ∧
  @filteredAndSortedPosts Sample.builtins
      (@posts_after_projection Sample.builtins posts "" "all" "created_at")
      "" "all" "created_at"
    = @filteredAndSortedPosts Sample.builtins posts "" "all" "created_at".
Proof.
  intros a b posts.
  assert (@Forall _ (@dated Sample.builtins) posts) as Hposts.
  { repeat constructor; eexists; reflexivity. }
  split; [exact Hposts|]. split; [vm_compute; reflexivity|].
  exact (proj1 (@projection_again_is_same Sample.builtins posts "" "all" "created_at"
                  Hposts)).
Defined.

(* ===================================================================== *)
(** * The claim button, the calls of the like and comment handlers *)
(* ===================================================================== *)

(** X13: a click on the claim button opens the donor details exactly for
    a signed-in user with a profile of role student and status verified who
    is not the author of the post; for everyone else the click does nothing
    at all. *)
Theorem claim_button_reveals_iff
    (user : option User.t) (profile : option Profile.t) (post : Post.t) :
  (clickClaimButton user profile post = [SetDonorDetails (Some post)] ∧
   ∃ u prof, user = Some u ∧ profile = Some prof ∧
     Profile.role prof = "student" ∧
     Profile.verification_status prof = "verified" ∧
     Post.user_id post ≠ User.id u) ∨
  (clickClaimButton user profile post = [] ∧
   ¬ ∃ u prof, user = Some u ∧ profile = Some prof ∧
     Profile.role prof = "student" ∧
     Profile.verification_status prof = "verified" ∧
     Post.user_id post ≠ User.id u).
Proof.
  unfold clickClaimButton, isClaimButtonDisabled, handleClaimResourceClick,
    not_student, not_verified.
  destruct user as [u|]; [|right; split; [done|by intros (? & ? & [=] & _)]].
  destruct profile as [prof|];
    [|right; split; [done|by intros (? & ? & _ & [=] & _)]].
  destruct (bool_decide (Profile.role prof ≠ "student")) eqn:Hrole.
  { right. split; [done|]. apply bool_decide_eq_true in Hrole.
    by intros (? & ? & _ & [= <-] & ? & _). }
  apply bool_decide_eq_false, dec_stable in Hrole.
  destruct (bool_decide (Profile.verification_status prof ≠ "verified")) eqn:Hstatus.
  { right. split; [done|]. apply bool_decide_eq_true in Hstatus.
    by intros (? & ? & _ & [= <-] & _ & ? & _). }
  apply bool_decide_eq_false, dec_stable in Hstatus.
  destruct (decide (Post.user_id post = User.id u)) as [Hown|Hother].
  - right. split; [done|]. by intros (? & ? & [= <-] & _ & _ & _ & ?).
  - left. split; [done|]. by exists u, prof.
Qed.

(** X14: every call the like and comment handlers send to the store names
    the acting user as its author or actor, and none of them is a
    notification addressed to the acting user. *)
Theorem calls_act_for_user
    (u : User.t) (profile : option Profile.t) (clock : Clock.t) (post : Post.t)
    (posts : list Post.t) (newComments : gmap string string) (postId : string)
    (r1 r2 r3 r4 : outcome) :
  Forall (λ c, acting_user c = User.id u ∧ notifies_self c = false)
    (remote_calls (handleLikeToggle (Some u) profile clock post r1 r2)) ∧
  Forall (λ c, acting_user c = User.id u ∧ notifies_self c = false)
    (remote_calls
       (handleAddComment (Some u) profile clock posts newComments postId r3 r4)).
Proof.
  split.
  - unfold handleLikeToggle. destruct profile as [prof|]; [|by constructor].
    destruct (hasLiked u post), r1 as [e1|e1], r2 as [e2|e2],
      (decide (Post.user_id post ≠ User.id u)) as [Hne|He];
      cbn; repeat constructor; by apply bool_decide_eq_false.
  - unfold handleAddComment.
    destruct (newComments !! postId) as [text|]; cbn; [|by constructor].
    destruct profile as [prof|]; [|by constructor].
    destruct (Js.truthy (Js.trim text)); [|by constructor].
    destruct r3 as [[e3|]|e3]; cbn.
    + repeat constructor.
    + destruct (list_find (λ p, Post.id p = postId) posts) as [[k found]|];
        [destruct (decide (Post.user_id found ≠ User.id u)); [destruct r4|]|];
        cbn; repeat constructor; by apply bool_decide_eq_false.
    + repeat constructor.
Qed.

(** X15: one like toggle on a post of the feed flips whether the acting
    user is among its likers and changes that of no other user, and the
    call it sends agrees with the change: a delete if the user was a
    liker, an insert otherwise, whatever the calls come back with. *)
Theorem like_toggle_flips_membership
    (u : User.t) (prof : Profile.t) (clock : Clock.t) (r r' : outcome)
    (st : FeedState.t) (i : nat) (post : Post.t) :
  FeedState.posts st !! i = Some post →
  let es := handleLikeToggle (Some u) (Some prof) clock post r r' in
  ∃ post1,
    FeedState.posts (apply_effects es st) !! i = Some post1 ∧
    (User.id u ∈ likers post1 ↔ User.id u ∉ likers post) ∧
    (∀ v, v ≠ User.id u → (v ∈ likers post1 ↔ v ∈ likers post)) ∧
    head (remote_calls es)
      = Some (if bool_decide (User.id u ∈ likers post)
              then LikesDelete (Post.id post) (User.id u)
              else LikesInsert (Post.id post) (User.id u)).
Proof.
  intros Hi es. exists (Post.with_likes (optimisticLikes u clock post) post).
  split.
  { subst es. rewrite handleLikeToggle_posts.
    rewrite (applyLikeToggle_lookup _ _ _ _ _ _ Hi). by rewrite decide_True. }
  rewrite likers_toggle. pose proof (hasLiked_likers u post) as Hliked.
  subst es. unfold handleLikeToggle.
  destruct (hasLiked u post) eqn:Hhas.
  - assert (User.id u ∈ likers post) as Hin by by apply Hliked.
    rewrite bool_decide_eq_true_2 by done.
    split; [set_solver|]. split; [set_solver|]. by destruct r.
  - assert (User.id u ∉ likers post) as Hnotin.
    { intros Hin. apply Hliked in Hin. done. }
    rewrite bool_decide_eq_false_2 by done.
    split; [set_solver|]. split; [set_solver|].
    destruct r, r', (decide (Post.user_id post ≠ User.id u)); reflexivity.
Qed.

Lemma like_toggle_flips_membership_witness :
  let post := Sample.post "p1" "bob" Sample.T1 "wisdom" (Some "hello")
                (Some [Sample.like 8 "p1" "bob"]) None in
  let st := Sample.state [post] in
  FeedState.posts st !! 0%nat = Some post ∧
  ∃ post1,
    FeedState.posts
      (apply_effects
         (handleLikeToggle (Some Sample.ann) (Some Sample.student) Sample.clock post
            (Resolved None) (Resolved None)) st) !! 0%nat = Some post1 ∧
    (User.id Sample.ann ∈ likers post1 ↔ User.id Sample.ann ∉ likers post) ∧
    (∀ v, v ≠ User.id Sample.ann → (v ∈ likers post1 ↔ v ∈ likers post)) ∧
    head (remote_calls
            (handleLikeToggle (Some Sample.ann) (Some Sample.student) Sample.clock post
               (Resolved None) (Resolved None)))
      = Some (if bool_decide (User.id Sample.ann ∈ likers post)
              then LikesDelete (Post.id post) (User.id Sample.ann)
              else LikesInsert (Post.id post) (User.id Sample.ann)).
Proof.
  intros post st. split; [reflexivity|].
  exact (like_toggle_flips_membership Sample.ann Sample.student Sample.clock
           (Resolved None) (Resolved None) st 0%nat post eq_refl).
Defined.

(** X17: an add-comment call that passes its tests writes the posts once,
    or twice when the insert came back with an error, the second write being
    the rollback. It ends in a refetch without any message when the insert
    succeeded and the notification, if one was sent, did not throw; in every
    other case it ends in an error message without a refetch, also when the
    comment was stored and only the notification threw. *)
Theorem add_comment_outcomes
    (u : User.t) (prof : Profile.t) (clock : Clock.t) (posts : list Post.t)
    (newComments : gmap string string) (postId text : string)
    (r_comments r_notification : outcome) :
  newComments !! postId = Some text →
  Js.truthy (Js.trim text) = true →
  let es :=
    handleAddComment (Some u) (Some prof) clock posts newComments postId
      r_comments r_notification in
  let c := optimisticComment u prof clock postId (Js.trim text) in
  let notify :=
    match list_find (λ p, Post.id p = postId) posts with
    | Some (_, post) => bool_decide (Post.user_id post ≠ User.id u)
    | None => false
    end in
  let succeeded :=
    match r_comments, r_notification with
    | Resolved None, Resolved _ => true
    | Resolved None, Rejected _ => negb notify
    | _, _ => false
    end in
  posts_writes es
    = appendComment postId c
      :: match r_comments with
         | Resolved (Some _) => [removeComment postId (Comment.id c)]
         | _ => []
         end ∧
  if succeeded
  then last es = Some FetchPosts ∧ no_toast es
  else no_refetch es ∧ ∃ msg, last es = Some (Toast ToastError msg).
Proof.
  intros Htext Htruthy es c notify succeeded.
  subst es succeeded notify. unfold handleAddComment. rewrite Htext.
  cbn [fmap option_fmap option_map]. rewrite Htruthy. fold c.
  unfold no_toast, no_refetch.
  destruct r_comments as [[error|]|reason].
  - split; [reflexivity|]. cbn. split; [set_solver|]. by eexists.
  - destruct (list_find (λ p, Post.id p = postId) posts) as [[k post]|].
    + destruct (decide (Post.user_id post ≠ User.id u)) as [Hne|He].
      * rewrite bool_decide_eq_true_2 by done.
        destruct r_notification as [e|e]; (split; [reflexivity|]); cbn.
        -- split; [done|]. intros kind msg. set_solver.
        -- split; [set_solver|]. by eexists.
      * rewrite bool_decide_eq_false_2 by done.
        destruct r_notification as [e|e]; (split; [reflexivity|]); cbn;
          (split; [done|]); intros kind msg; set_solver.
    + destruct r_notification as [e|e]; (split; [reflexivity|]); cbn;
        (split; [done|]); intros kind msg; set_solver.
  - split; [reflexivity|]. cbn. split; [set_solver|]. by eexists.
Qed.

Lemma add_comment_outcomes_witness :
  let post := Sample.post "p1" "bob" Sample.T1 "wisdom" (Some "hello") None None in
  let newComments : gmap string string := {[ "p1" := "  nice one " ]} in
  let es :=
    handleAddComment (Some Sample.ann) (Some Sample.student) Sample.clock [post]
      newComments "p1" (Resolved None) (Rejected (JsError.mk None)) in
  newComments !! "p1" = Some "  nice one " ∧
  Js.truthy (Js.trim "  nice one ") = true ∧
  Remote (CommentsInsert "p1" "ann" "nice one") ∈ es ∧
  no_refetch es ∧
  ∃ msg, last es = Some (Toast ToastError msg).
Proof.
  intros post newComments es.
  split; [reflexivity|]. split; [reflexivity|].
  split; [vm_compute; do 2 apply list_elem_of_further; apply list_elem_of_here|].
  exact (proj2 (add_comment_outcomes Sample.ann Sample.student Sample.clock [post]
                  newComments "p1" "  nice one " (Resolved None)
                  (Rejected (JsError.mk None)) eq_refl eq_refl)).
Defined.

(* ===================================================================== *)
(** * Fetching, deleting and editing *)
(* ===================================================================== *)

Lemma apply_ui_effects_app (es1 es2 : list ui_effect) (st : UiState.t) :
  apply_ui_effects (es1 ++ es2) st = apply_ui_effects es2 (apply_ui_effects es1 st).
Proof. apply foldl_app. Qed.

(** X19: a fetch always ends the loading state. When the query resolves
    without an error the posts become the rows it returned, none if it
    returned no list; when it resolves with an error or throws, the posts
    stay as they were and the user is told that the posts could not be
    fetched. *)
Theorem fetch_posts_outcomes (r : fetch_outcome) (st : UiState.t) :
  let es := fetchPosts r in
  let st' := apply_ui_effects es st in
  UiState.loading st' = false ∧
  store_calls es = [SelectPosts] ∧
  match r with
  | FetchResolved data None =>
      ui_posts st' = default [] data ∧
      Feed (Toast ToastError "Could not fetch posts.") ∉ es
  | _ =>
      ui_posts st' = ui_posts st ∧
      last es = Some (SetLoading false) ∧
      Feed (Toast ToastError "Could not fetch posts.") ∈ es
  end.
Proof.
  destruct r as [data [error|]|reason]; cbn; split_and!; try reflexivity; set_solver.
Qed.




(** X22: the preview an edit stores does not follow the edited text. The
    click on Edit opens the editor on the post and, when the text of the
    post holds an address, only raises the loading flag: the preview in the
    state is still the one that was there before the click, and a save made
    now stores title, description and image of that one. Once the promise
    the click started has resolved and its callback has run, the preview is
    the one of the address of the old text (none without an address), and a
    save made then stores title, description and image of the old address.
    Either way the link stored is the first address of the edited text, and
    the three preview fields never come from it. *)
Theorem edit_keeps_old_preview
    (u : User.t) (post : Post.t) (editedContent : string) (r_update : outcome)
    (st : UiState.t) :
  let found : option string := Post.content post ≫= Regex.exec URL_REGEX in
  let clicked := apply_ui_effects (handleEditClick post) st in
  let resolved := apply_ui_effects (handleEditClick_then post) clicked in
  let before :=
    match found with
    | Some _ => Composer.linkPreview (UiState.composer st)
    | None => None
    end in
  let old := fetchRichLinkPreview <$> found in
  let save (s : UiState.t) :=
    store_calls
      (handleUpdatePost (Some u) (UiState.editingPost s) editedContent
         (Composer.linkPreview (UiState.composer s)) r_update) in
  let stored (preview : option LinkPreview.t) :=
    [UpdatePost
       (PostEdit.mk editedContent (Regex.exec URL_REGEX editedContent)
          (or_null (LinkPreview.title <$> preview))
          (or_null (preview ≫= LinkPreview.description))
          (or_null (preview ≫= LinkPreview.image)))
       (Post.id post) (User.id u)] in
  (UiState.editingPost clicked = Some post ∧
   UiState.editedContent clicked = Js.or_else (Post.content post) "" ∧
   UiState.loadingLinkPreview clicked
     = (match found with Some _ => true | None => UiState.loadingLinkPreview st end) ∧
   Composer.linkPreview (UiState.composer clicked) = before ∧
   save clicked = stored before) ∧
  (UiState.editingPost resolved = Some post ∧
   UiState.editedContent resolved = Js.or_else (Post.content post) "" ∧
   UiState.loadingLinkPreview resolved
     = (match found with Some _ => false | None => UiState.loadingLinkPreview st end) ∧
   Composer.linkPreview (UiState.composer resolved) = old ∧
   save resolved = stored old).
Proof.
  intros found clicked resolved before old save stored.
  assert (UiState.editingPost clicked = Some post ∧
          UiState.editedContent clicked = Js.or_else (Post.content post) "" ∧
          UiState.loadingLinkPreview clicked
            = (match found with Some _ => true | None => UiState.loadingLinkPreview st end) ∧
          Composer.linkPreview (UiState.composer clicked) = before)
    as (He & Hc & Hl & Hp).
  { subst clicked before. unfold handleEditClick. fold found. by destruct found. }
  assert (UiState.editingPost resolved = Some post ∧
          UiState.editedContent resolved = Js.or_else (Post.content post) "" ∧
          UiState.loadingLinkPreview resolved
            = (match found with Some _ => false | None => UiState.loadingLinkPreview st end) ∧
          Composer.linkPreview (UiState.composer resolved) = old)
    as (He' & Hc' & Hl' & Hp').
  { subst resolved clicked old. unfold handleEditClick, handleEditClick_then.
    fold found. by destruct found. }
  split.
  - split_and!; try done.
    subst save stored. cbv beta. rewrite He, Hp.
    by destruct r_update as [[error|]|reason].
  - split_and!; try done.
    subst save stored. cbv beta. rewrite He', Hp'.
    by destruct r_update as [[error|]|reason].
Qed.

(** An edit that replaces the address of a post: saved before the preview
    promise has resolved it stores the preview the composer happened to hold
    (none here), saved afterwards the title of the old address. *)
Example edit_keeps_old_title :
  let post := Sample.post "p1" "ann" Sample.T1 "wisdom"
                (Some "Read https://wikipedia.org/x") None None in
  let clicked :=
    apply_ui_effects (handleEditClick post) (SampleUi.state SampleUi.donation [post]) in
  let resolved := apply_ui_effects (handleEditClick_then post) clicked in
  let save (s : UiState.t) :=
    store_calls
      (handleUpdatePost (Some Sample.ann) (UiState.editingPost s)
         "Read https://www.google.com/search instead"
         (Composer.linkPreview (UiState.composer s)) (Resolved None)) in
  UiState.loadingLinkPreview clicked = true ∧
  save clicked
    = [UpdatePost
         (PostEdit.mk "Read https://www.google.com/search instead"
            (Some "https://www.google.com/search") None None None)
         "p1" "ann"] ∧
  UiState.loadingLinkPreview resolved = false ∧
  save resolved
    = [UpdatePost
         (PostEdit.mk "Read https://www.google.com/search instead"
            (Some "https://www.google.com/search")
            (Some "Wikipedia, the free encyclopedia")
            (Some "Wikipedia is a free online encyclopedia, created and maintained by a community of volunteer editors through open collaboration and using a wiki-based editing system.")
            (Some "https://upload.wikimedia.org/wikipedia/en/thumb/8/80/Wikipedia-logo-v2.svg/1200px-Wikipedia-logo-v2.svg.png"))
         "p1" "ann"].
Proof. vm_compute. split_and!; reflexivity. Qed.

(* ===================================================================== *)
(** * Creating a post *)
(* ===================================================================== *)

Lemma truthy_nonempty (s : string) : Js.truthy s = true ↔ s ≠ "".
Proof. by destruct s. Qed.

Section Submit.
Variables (u : User.t) (c : Composer.t).

(** What a row that has passed the validations holds. *)
Lemma buildPostData_inr (d : PostData.t) :
  buildPostData u c = inr d →
  PostData.user_id d = User.id u ∧
  PostData.post_type d = Composer.composerType c ∧
  PostData.link_url d = Regex.exec URL_REGEX (Composer.content c) ∧
  PostData.image_url d = None ∧
  (Composer.composerType c = "donation" ∨ Composer.composerType c = "seeking" →
   PostData.resource_title d = Some (Js.trim (Composer.resourceTitle c)) ∧
   Js.trim (Composer.resourceTitle c) ≠ "" ∧
   PostData.resource_category d = Some (Composer.resourceCategory c) ∧
   Composer.resourceCategory c ≠ "") ∧
  (Composer.composerType c = "donation" →
   PostData.resource_contact d = Some (Js.trim (Composer.resourceContact c)) ∧
   Js.trim (Composer.resourceContact c) ≠ "") ∧
  (Composer.composerType c = "wisdom" →
   PostData.content d = Some (Js.trim (Composer.content c))) ∧
  (Composer.composerType c ≠ "wisdom" → PostData.content d = None).
Proof.
  unfold buildPostData. cbv zeta.
  destruct (bool_decide (Composer.composerType c = "donation"
                         ∨ Composer.composerType c = "seeking")
            && (negb (Js.truthy (Js.trim (Composer.resourceTitle c)))
                || negb (Js.truthy (Composer.resourceCategory c)))) eqn:Hres; [done|].
  destruct (bool_decide (Composer.composerType c = "donation")
            && negb (Js.truthy (Js.trim (Composer.resourceContact c)))) eqn:Hdon; [done|].
  intros [= <-]. cbn. split_and!; try reflexivity.
  - intros Htype. rewrite bool_decide_eq_true_2 in Hres |- * by done.
    cbn in Hres. apply orb_false_iff in Hres as [Ht Hc].
    apply negb_false_iff, truthy_nonempty in Ht.
    apply negb_false_iff, truthy_nonempty in Hc. done.
  - intros Htype. rewrite bool_decide_eq_true_2 in Hdon |- * by done.
    cbn in Hdon. apply negb_false_iff, truthy_nonempty in Hdon. done.
  - intros Htype. by rewrite bool_decide_eq_true_2.
  - intros Htype. by rewrite bool_decide_eq_false_2.
Qed.

(** A composer whose Post button is enabled passes the validations of the
    handler. *)
Lemma enabled_button_validates :
  postButtonDisabled c = false → ∃ d, buildPostData u c = inr d.
Proof.
  unfold postButtonDisabled, buildPostData. cbv zeta. intros Hbutton.
  apply orb_false_iff in Hbutton as [Hbutton Hdon].
  apply orb_false_iff in Hbutton as [Hbutton Hres].
  rewrite Hres, Hdon. by eexists.
Qed.

End Submit.

(** Where a row that reaches the store comes from. *)
Lemma inserted_post_origin
    (user : option User.t) (profile : option Profile.t) (clock : Clock.t)
    (getPublicUrl : string → string) (c : Composer.t) (r_upload r_insert : outcome)
    (d : PostData.t) :
  InsertPost d
    ∈ store_calls (handlePostSubmit user profile clock getPublicUrl c r_upload r_insert) →
  ∃ u postData imageUrl,
    user = Some u ∧ Composer.submitting c = false ∧
    buildPostData u c = inr postData ∧
    d = with_image_url imageUrl postData ∧
    (imageUrl = None ↔ Composer.postImageFile c = None).
Proof.
  unfold handlePostSubmit. intros Hin.
  destruct user as [u|]; [|set_solver].
  destruct profile as [prof|]; [|set_solver].
  destruct (Composer.submitting c); [set_solver|].
  destruct (buildPostData u c) as [msg|postData] eqn:Hbuild; [set_solver|].
  exists u, postData.
  destruct (Composer.postImageFile c) as [file|].
  - exists (Some (getPublicUrl (uploadPath u clock file))).
    split_and!; [done..| |done].
    destruct r_upload as [[e|]|e]; [set_solver| |set_solver].
    destruct r_insert as [[e|]|e]; cbn in Hin; set_solver.
  - exists None. split_and!; [done..| |done].
    destruct r_insert as [[e|]|e]; cbn in Hin; set_solver.
Qed.

(** X23: a row reaches the store only from a composer that is not already
    submitting, in the acting user's name, with the type of the composer and
    the first address of the free text as its link. A donation or a request
    carries a title and a category that are not empty, a donation a contact
    that is not empty too, each stripped of the white space around it; free
    text is sent for a wisdom post only, and an image address exactly when a
    file was chosen. *)
Theorem inserted_post_is_validated
    (user : option User.t) (profile : option Profile.t) (clock : Clock.t)
    (getPublicUrl : string → string) (c : Composer.t) (r_upload r_insert : outcome)
    (d : PostData.t) :
  InsertPost d
    ∈ store_calls (handlePostSubmit user profile clock getPublicUrl c r_upload r_insert) →
  Composer.submitting c = false ∧
  Some (PostData.user_id d) = User.id <$> user ∧
  PostData.post_type d = Composer.composerType c ∧
  PostData.link_url d = Regex.exec URL_REGEX (Composer.content c) ∧
  (Composer.composerType c = "donation" ∨ Composer.composerType c = "seeking" →
   PostData.resource_title d = Some (Js.trim (Composer.resourceTitle c)) ∧
   Js.trim (Composer.resourceTitle c) ≠ "" ∧
   PostData.resource_category d = Some (Composer.resourceCategory c) ∧
   Composer.resourceCategory c ≠ "") ∧
  (Composer.composerType c = "donation" →
   PostData.resource_contact d = Some (Js.trim (Composer.resourceContact c)) ∧
   Js.trim (Composer.resourceContact c) ≠ "") ∧
  (Composer.composerType c = "wisdom" →
   PostData.content d = Some (Js.trim (Composer.content c))) ∧
  (Composer.composerType c ≠ "wisdom" → PostData.content d = None) ∧
  (PostData.image_url d = None ↔ Composer.postImageFile c = None).
Proof.
  intros Hin.
  destruct (inserted_post_origin _ _ _ _ _ _ _ _ Hin)
    as (u & postData & img & -> & Hsub & Hbuild & -> & Himg).
  destruct (buildPostData_inr u c postData Hbuild)
    as (Hu & Ht & Hl & Hi & Hres & Hdon & Hwis & Hnot).
  cbn. rewrite Hu. by split_and!.
Qed.

Lemma inserted_post_is_validated_witness :
  let d :=
    PostData.mk "ann" "donation" None None None None None
      (Some "Algebra textbooks") (Some "books") (Some "ann@example.org")
      (Some "https://cdn.example.org/post-images/ann/1704070000000_cover.png") in
  InsertPost d
    ∈ store_calls
        (handlePostSubmit (Some Sample.ann) (Some Sample.student) Sample.clock
           SampleUi.getPublicUrl SampleUi.donation (Resolved None) (Resolved None)) ∧
  (PostData.image_url d = None ↔ Composer.postImageFile SampleUi.donation = None).
Proof.
  intros d.
  assert (InsertPost d
            ∈ store_calls
                (handlePostSubmit (Some Sample.ann) (Some Sample.student) Sample.clock
                   SampleUi.getPublicUrl SampleUi.donation (Resolved None)
                   (Resolved None))) as Hin.
  { vm_compute. apply list_elem_of_further, list_elem_of_here. }
  split; [exact Hin|].
  exact (proj2 (proj2 (proj2 (proj2 (proj2 (proj2 (proj2 (proj2
           (inserted_post_is_validated _ _ _ _ _ _ _ _ Hin))))))))).
Defined.

(** X25: the handler leaves the submitting flag as it found it. A call
    made while a submission is under way does nothing; any other call that
    raises the flag lowers it again as its last step, whether a validation
    stopped it, the upload or the insert failed or threw, or all went
    well. *)
Theorem submitting_flag_is_released
    (user : option User.t) (profile : option Profile.t) (clock : Clock.t)
    (getPublicUrl : string → string) (r_upload r_insert : outcome) (st : UiState.t) :
  let c := UiState.composer st in
  let es := handlePostSubmit user profile clock getPublicUrl c r_upload r_insert in
  Composer.submitting (UiState.composer (apply_ui_effects es st)) = Composer.submitting c ∧
  (es = [] ∨
   (head es = Some (SetSubmitting true) ∧ last es = Some (SetSubmitting false))).
Proof.
  intros c es. subst es. unfold handlePostSubmit.
  destruct user as [u|]; [|split; [done|by left]].
  destruct profile as [prof|]; [|split; [done|by left]].
  destruct (Composer.submitting c) eqn:Hsub; [split; [done|by left]|].
  destruct (buildPostData u c) as [msg|postData].
  { split; [reflexivity|]. right. by split. }
  destruct (Composer.postImageFile c) as [file|],
    r_upload as [[e1|]|e1], r_insert as [[e2|]|e2];
    (split; [reflexivity|]); right; by split.
Qed.



(** X24: through an enabled Post button every submission passes the
    validations of the handler, and the row it sends has free text that is
    not empty if it is a wisdom post, which the handler itself does not
    test. *)
Theorem enabled_button_sends_valid_post
    (u : User.t) (prof : Profile.t) (clock : Clock.t)
    (getPublicUrl : string → string) (c : Composer.t) (r_upload r_insert : outcome) :
  postButtonDisabled c = false →
  (∃ d, buildPostData u c = inr d) ∧
  store_calls (handlePostSubmit (Some u) (Some prof) clock getPublicUrl c r_upload r_insert)
    ≠ [] ∧
  ∀ d, InsertPost d
         ∈ store_calls
             (handlePostSubmit (Some u) (Some prof) clock getPublicUrl c r_upload r_insert) →
       Composer.composerType c = "wisdom" →
       ∃ text, PostData.content d = Some text ∧ text ≠ "".
Proof.
  intros Hbutton.
  destruct (enabled_button_validates u c Hbutton) as [postData Hbuild].
  assert (Composer.submitting c = false) as Hsub.
  { unfold postButtonDisabled in Hbutton.
    by repeat (apply orb_false_iff in Hbutton as [Hbutton _]). }
  split; [by exists postData|]. split.
  { unfold handlePostSubmit. rewrite Hsub, Hbuild.
    by destruct (Composer.postImageFile c) as [file|],
         r_upload as [[e1|]|e1], r_insert as [[e2|]|e2]. }
  intros d Hin Hwis.
  destruct (inserted_post_origin _ _ _ _ _ _ _ _ Hin)
    as (u' & postData' & img & [= <-] & _ & Hbuild' & -> & _).
  destruct (buildPostData_inr u c postData' Hbuild') as (_ & _ & _ & _ & _ & _ & Hcontent & _).
  exists (Js.trim (Composer.content c)). split; [by apply Hcontent|].
  unfold postButtonDisabled in Hbutton.
  apply orb_false_iff in Hbutton as [Hbutton _].
  apply orb_false_iff in Hbutton as [Hbutton _].
  apply orb_false_iff in Hbutton as [_ Hblank].
  rewrite bool_decide_eq_true_2 in Hblank by done. cbn in Hblank.
  apply negb_false_iff in Hblank. by apply truthy_nonempty.
Qed.

Lemma enabled_button_sends_valid_post_witness :
  postButtonDisabled SampleUi.wisdom = false ∧
  (∃ d, buildPostData Sample.ann SampleUi.wisdom = inr d) ∧
  store_calls
    (handlePostSubmit (Some Sample.ann) (Some Sample.student) Sample.clock
       SampleUi.getPublicUrl SampleUi.wisdom (Resolved None) (Resolved None)) ≠ [].
Proof.
  assert (postButtonDisabled SampleUi.wisdom = false) as Hbutton by reflexivity.
  split; [exact Hbutton|].
  pose proof (enabled_button_sends_valid_post Sample.ann Sample.student Sample.clock
                SampleUi.getPublicUrl SampleUi.wisdom (Resolved None) (Resolved None)
                Hbutton) as (Hvalid & Hcalls & _).
  split; [exact Hvalid | exact Hcalls].
Defined.

(** The handler by itself lets a wisdom post with blank text through: only
    the button holds it back. *)
Example blank_wisdom_passes_the_handler :
  let c := Composer.mk "wisdom" "   " "" "" "" None false None in
  postButtonDisabled c = true ∧
  store_calls
    (handlePostSubmit (Some Sample.ann) (Some Sample.student) Sample.clock
       SampleUi.getPublicUrl c (Resolved None) (Resolved None))
  = [InsertPost (PostData.mk "ann" "wisdom" None (Some "") None None None None None
                   None None)].
Proof. split; vm_compute; reflexivity. Qed.

(** X27: with a file chosen the upload comes first, under a path made of
    the user, the time and the file name. If it resolves with an error or
    throws, no row is sent and the user gets the error's message; if it
    succeeds, the row that is sent carries the public address of that
    path. *)
Theorem upload_precedes_insert
    (u : User.t) (prof : Profile.t) (clock : Clock.t)
    (getPublicUrl : string → string) (c : Composer.t) (r_upload r_insert : outcome)
    (file : File.t) (postData : PostData.t) :
  Composer.submitting c = false →
  Composer.postImageFile c = Some file →
  buildPostData u c = inr postData →
  let es := handlePostSubmit (Some u) (Some prof) clock getPublicUrl c r_upload r_insert in
  let filePath := User.id u +:+ "/" +:+ pretty (Clock.Date_now clock)
                  +:+ "_" +:+ File.name file in
  store_calls es
    = UploadImage filePath file
      :: match r_upload with
         | Resolved None =>
             [InsertPost (with_image_url (Some (getPublicUrl filePath)) postData)]
         | _ => []
         end ∧
  match r_upload with
  | Resolved None => True
  | Resolved (Some error) | Rejected error =>
      Feed (Toast ToastError (Js.or_else (JsError.message error) "Failed to create post."))
        ∈ es
  end.
Proof.
  intros Hsub Hfile Hbuild es filePath. subst es. unfold handlePostSubmit.
  rewrite Hsub, Hbuild, Hfile.
  destruct r_upload as [[e1|]|e1]; [| destruct r_insert as [[e2|]|e2] |];
    (split; [reflexivity|]); cbn; set_solver.
Qed.

Lemma upload_precedes_insert_witness :
  let d :=
    PostData.mk "ann" "donation" None None None None None
      (Some "Algebra textbooks") (Some "books") (Some "ann@example.org") None in
  Composer.submitting SampleUi.donation = false ∧
  Composer.postImageFile SampleUi.donation = Some (File.mk "cover.png") ∧
  buildPostData Sample.ann SampleUi.donation = inr d ∧
  store_calls
    (handlePostSubmit (Some Sample.ann) (Some Sample.student) Sample.clock
       SampleUi.getPublicUrl SampleUi.donation
       (Resolved (Some (JsError.mk (Some "bucket full")))) (Resolved None))
  = [UploadImage "ann/1704070000000_cover.png" (File.mk "cover.png")].
Proof.
  intros d.
  assert (buildPostData Sample.ann SampleUi.donation = inr d) as Hbuild
    by (vm_compute; reflexivity).
  split; [reflexivity|]. split; [reflexivity|]. split; [exact Hbuild|].
  pose proof (upload_precedes_insert Sample.ann Sample.student Sample.clock
                SampleUi.getPublicUrl SampleUi.donation
                (Resolved (Some (JsError.mk (Some "bucket full")))) (Resolved None)
                (File.mk "cover.png") d eq_refl eq_refl Hbuild) as [Hcalls _].
  cbv zeta in Hcalls. rewrite Hcalls. vm_compute. reflexivity.
Defined.

(* ===================================================================== *)
(** * Without a user; the comment box *)
(* ===================================================================== *)

(** X28: without a signed-in user no handler sends anything to the store
    or writes the posts, whatever else it is given: liking, commenting,
    claiming, submitting, deleting and saving an edit end in a message at
    most. *)
Theorem signed_out_does_nothing
    (profile : option Profile.t) (clock : Clock.t) (post : Post.t)
    (posts : list Post.t) (newComments : gmap string string) (postId : string)
    (getPublicUrl : string → string) (c : Composer.t)
    (postToDelete editingPost : option Post.t) (editedContent : string)
    (linkPreview : option LinkPreview.t) (r1 r2 : outcome) :
  (remote_calls (handleLikeToggle None profile clock post r1 r2) = [] ∧
   posts_writes (handleLikeToggle None profile clock post r1 r2) = []) ∧
  (remote_calls (handleAddComment None profile clock posts newComments postId r1 r2) = [] ∧
   posts_writes (handleAddComment None profile clock posts newComments postId r1 r2) = []) ∧
  handleClaimResourceClick None profile post
    = [Toast ToastError "You must be signed in to claim resources."] ∧
  clickClaimButton None profile post = [] ∧
  handlePostSubmit None profile clock getPublicUrl c r1 r2 = [] ∧
  handleDeletePost None postToDelete r1 = [] ∧
  handleUpdatePost None editingPost editedContent linkPreview r1 = [].
Proof.
  split_and!; try reflexivity.
  - by destruct postToDelete.
  - by destruct editingPost.
Qed.

Lemma apply_ui_effects_Feed (es : list effect) (st : UiState.t) :
  UiState.feed (apply_ui_effects (Feed <$> es) st) = apply_effects es (UiState.feed st).
Proof.
  revert st. induction es as [|e es IH]; intros st; [done|].
  cbn. unfold apply_ui_effects, apply_effects in IH. by rewrite IH.
Qed.

(** X18: a text typed under a post and sent with a passing add-comment
    call goes to the store stripped of the white space around it, and the
    call empties the input of that post. The same call made again on the
    state it leaves, as a second press of the key would, therefore sends
    nothing and writes nothing, whatever the first one came back with. *)
Theorem add_comment_is_not_repeated
    (u : User.t) (prof : Profile.t) (clock clock' : Clock.t) (postId text : string)
    (r1 r2 r3 r4 : outcome) (st0 : UiState.t) :
  Js.truthy (Js.trim text) = true →
  let st1 := apply_ui_effects (handleCommentChange postId text) st0 in
  let first :=
    handleAddComment (Some u) (Some prof) clock (ui_posts st1)
      (FeedState.newComments (UiState.feed st1)) postId r1 r2 in
  let st2 := apply_ui_effects (Feed <$> first) st1 in
  let second :=
    handleAddComment (Some u) (Some prof) clock' (ui_posts st2)
      (FeedState.newComments (UiState.feed st2)) postId r3 r4 in
  Remote (CommentsInsert postId (User.id u) (Js.trim text)) ∈ first ∧
  FeedState.newComments (UiState.feed st2) !! postId = Some "" ∧
  second = [Toast ToastInfo "Please sign in and write a comment."].
Proof.
  intros Htruthy st1 first st2 second.
  assert (FeedState.newComments (UiState.feed st1) !! postId = Some text) as Htext.
  { subst st1. cbn. apply lookup_insert_eq. }
  assert (Remote (CommentsInsert postId (User.id u) (Js.trim text)) ∈ first ∧
          FeedState.newComments (apply_effects first (UiState.feed st1))
            = <[postId := ""]> (FeedState.newComments (UiState.feed st1)))
    as [Hsent Hcleared].
  { subst first. unfold handleAddComment. rewrite Htext.
    cbn [fmap option_fmap option_map]. rewrite Htruthy.
    destruct r1 as [[e|]|e]; [split; [set_solver|reflexivity]| |
                              split; [set_solver|reflexivity]].
    destruct (list_find (λ p, Post.id p = postId) (ui_posts st1)) as [[k post]|];
      [destruct (decide (Post.user_id post ≠ User.id u)); [destruct r2|]|];
      (split; [cbn; set_solver|reflexivity]). }
  assert (FeedState.newComments (UiState.feed st2) !! postId = Some "") as Hempty.
  { subst st2. rewrite apply_ui_effects_Feed, Hcleared. apply lookup_insert_eq. }
  split; [exact Hsent|]. split; [exact Hempty|].
  subst second. unfold handleAddComment. rewrite Hempty. reflexivity.
Qed.

Lemma add_comment_is_not_repeated_witness :
  let post := Sample.post "p1" "bob" Sample.T1 "wisdom" (Some "hello") None None in
  let st0 := SampleUi.state SampleUi.wisdom [post] in
  let st1 := apply_ui_effects (handleCommentChange "p1" "  nice one ") st0 in
  Js.truthy (Js.trim "  nice one ") = true ∧
  Remote (CommentsInsert "p1" "ann" "nice one")
    ∈ handleAddComment (Some Sample.ann) (Some Sample.student) Sample.clock (ui_posts st1)
        (FeedState.newComments (UiState.feed st1)) "p1" (Resolved None) (Resolved None).
Proof.
  intros post st0 st1. split; [reflexivity|].
  exact (proj1 (add_comment_is_not_repeated Sample.ann Sample.student Sample.clock
                  Sample.clock' "p1" "  nice one " (Resolved None) (Resolved None)
                  (Resolved None) (Resolved None) st0 eq_refl)).
Defined.

(** X29: opening the comments of a post flips whether they are shown and
    leaves every other post as it is; doing it twice shows what was shown
    before, for every post. *)
Theorem toggle_comments_twice (postId : string) (st : UiState.t) :
  let st1 := apply_ui_effects (toggleComments postId) st in
  let st2 := apply_ui_effects (toggleComments postId) st1 in
  commentsExpanded (UiState.expandedComments st1) postId
    = negb (commentsExpanded (UiState.expandedComments st) postId) ∧
  (∀ other, other ≠ postId →
     commentsExpanded (UiState.expandedComments st1) other
       = commentsExpanded (UiState.expandedComments st) other) ∧
  (∀ any, commentsExpanded (UiState.expandedComments st2) any
            = commentsExpanded (UiState.expandedComments st) any) ∧
  ui_posts st2 = ui_posts st.
Proof.
  cbn. unfold commentsExpanded. split_and!.
  - by rewrite lookup_insert_eq.
  - intros other Hother. by rewrite lookup_insert_ne.
  - intros any. destruct (decide (any = postId)) as [->|Hne].
    + rewrite !lookup_insert_eq. cbn. by rewrite negb_involutive.
    + by rewrite !lookup_insert_ne.
  - reflexivity.
Qed.

(* ===================================================================== *)
(** * The preview and the link of a submitted post *)
(* ===================================================================== *)

(** A preview is always the preview of the address it was asked for. *)
Lemma fetchRichLinkPreview_url (url : string) :
  LinkPreview.url (fetchRichLinkPreview url) = url.
Proof.
  unfold fetchRichLinkPreview.
  destruct (Js.includes url "google.com"); [done|].
  by destruct (Js.includes url "wikipedia.org").
Qed.

(** X4: once the preview effect has run for the free text of the
    composer, a wisdom post submitted from it stores as its link the
    address the preview is for, and with it the title of that preview: a
    link and a title are stored together or not at all, and the link is a
    part of the text. *)
Theorem submitted_link_matches_preview
    (u : User.t) (st : UiState.t) (d : PostData.t) :
  let st1 :=
    apply_ui_effects (linkPreviewEffect (Composer.content (UiState.composer st))) st in
  let c := UiState.composer st1 in
  Composer.composerType c = "wisdom" →
  buildPostData u c = inr d →
  Composer.content c = Composer.content (UiState.composer st) ∧
  PostData.link_url d = LinkPreview.url <$> Composer.linkPreview c ∧
  PostData.link_title d = LinkPreview.title <$> Composer.linkPreview c ∧
  (PostData.link_url d = None ↔ PostData.link_title d = None) ∧
  (∀ url, PostData.link_url d = Some url → substring_of url (Composer.content c)).
Proof.
  intros st1 c Hwisdom Hbuild.
  assert (Composer.content c = Composer.content (UiState.composer st) ∧
          Composer.linkPreview c
            = fetchRichLinkPreview
                <$> Regex.exec URL_REGEX (Composer.content (UiState.composer st)))
    as [Hcontent Hpreview].
  { subst c st1. unfold linkPreviewEffect.
    by destruct (Regex.exec URL_REGEX (Composer.content (UiState.composer st))). }
  destruct (buildPostData_inr u c d Hbuild) as (_ & _ & Hurl & _).
  assert (PostData.link_title d = LinkPreview.title <$> Composer.linkPreview c) as Htitle.
  { unfold buildPostData in Hbuild. cbv zeta in Hbuild.
    destruct (bool_decide (Composer.composerType c = "donation"
                           ∨ Composer.composerType c = "seeking")
              && (negb (Js.truthy (Js.trim (Composer.resourceTitle c)))
                  || negb (Js.truthy (Composer.resourceCategory c)))); [done|].
    destruct (bool_decide (Composer.composerType c = "donation")
              && negb (Js.truthy (Js.trim (Composer.resourceContact c)))); [done|].
    injection Hbuild as <-. cbn. by rewrite bool_decide_eq_true_2. }
  split; [exact Hcontent|].
  rewrite Hurl, Htitle, Hpreview, Hcontent.
  destruct (Regex.exec URL_REGEX (Composer.content (UiState.composer st)))
    as [url|] eqn:Hexec; cbn.
  - rewrite fetchRichLinkPreview_url. split_and!; [done..| |].
    + split; intros [=].
    + intros ? [= <-]. by apply exec_in_language in Hexec as [? _].
  - split_and!; [done..|]. by intros ? [=].
Qed.

Lemma submitted_link_matches_preview_witness :
  let st := SampleUi.state SampleUi.wisdom [] in
  let st1 :=
    apply_ui_effects (linkPreviewEffect (Composer.content (UiState.composer st))) st in
  let d :=
    PostData.mk "ann" "wisdom" (Some "https://wikipedia.org/x")
      (Some "Read https://wikipedia.org/x today")
      (Some "Wikipedia, the free encyclopedia")
      (Some "Wikipedia is a free online encyclopedia, created and maintained by a community of volunteer editors through open collaboration and using a wiki-based editing system.")
      (Some "https://upload.wikimedia.org/wikipedia/en/thumb/8/80/Wikipedia-logo-v2.svg/1200px-Wikipedia-logo-v2.svg.png")
      None None None None in
  Composer.composerType (UiState.composer st1) = "wisdom" ∧
  buildPostData Sample.ann (UiState.composer st1) = inr d ∧
  PostData.link_title d = LinkPreview.title <$> Composer.linkPreview (UiState.composer st1).
Proof.
  intros st st1 d.
  assert (buildPostData Sample.ann (UiState.composer st1) = inr d) as Hbuild
    by (vm_compute; reflexivity).
  split; [reflexivity|]. split; [exact Hbuild|].
  exact (proj1 (proj2 (proj2
           (submitted_link_matches_preview Sample.ann st d eq_refl Hbuild)))).
Defined.
